(** * BreastCancerDataModule: staged partition set-up and loader getters

    A shallow embedding of [src/data/bcc_datamodule.py].  The data module is
    a Python object with mutable fields; its methods are embedded in a small
    state-and-exception monad over an explicit store holding the object and
    the record of calls made to the dataset source adapter
    ([DeepLakeDataset]). *)

From Stdlib Require Import List String ZArith Bool Arith Lia Permutation QArith.
Import ListNotations.

Local Open Scope string_scope.
Local Open Scope list_scope.
Local Open Scope nat_scope.

(** ** Transform pipelines (torchvision.transforms) *)

(** The transform steps named in [__init__], with the arguments the source
    passes to each of them. *)
Inductive Transform : Type :=
| ToPILImage
| Grayscale (num_output_channels : Z)
| Resize (size : Z * Z)
| RandomRotation (degrees : Z)
| ToTensor
| Normalize (mean std : list Z).

(** [transforms.Compose([...])]: an ordered list of steps. *)
Definition Compose : Type := list Transform.

Definition is_random (t : Transform) : bool :=
  match t with
  | RandomRotation _ => true
  | _ => false
  end.

(** ** Sources, dataset handles, the data module object *)

(** [Union[str, deeplake.dataset]]: a local path or a dataset object
    (identified by a number). *)
Inductive Source : Type :=
| LocalPath (path : string)
| DeeplakeHandle (ident : nat).

(** What [DeepLakeDataset(data_dir=..., transform=...)] returns: a fresh
    object ([ds_id] is its identity), remembering its arguments, with a
    length. *)
Record Dataset : Type := mkDataset {
  ds_id : nat;
  ds_data_dir : Source;
  ds_transform : Compose;
  ds_len : nat
}.

(** [self.hparams], as stored by [save_hyperparameters]. *)
Record HParams : Type := mkHParams {
  train_dir : Source;
  val_dir : Source;
  test_dir : Source;
  input_size : Z * Z;
  batch_size : Z;
  num_workers : Z;
  pin_memory : bool
}.

(** The instance fields.  [data_predict] is not assigned by [__init__]:
    [None] stands for the attribute being absent; the source never reads it
    before assigning it. *)
Record DataModule : Type := mkDataModule {
  hparams : HParams;
  train_transform : Compose;
  val_transform : Compose;
  test_transform : Compose;
  ds_train : Source;
  ds_val : Source;
  ds_test : Source;
  data_train : option Dataset;
  data_val : option Dataset;
  data_test : option Dataset;
  data_predict : option Dataset
}.

Definition set_data_train (d : option Dataset) (m : DataModule) : DataModule :=
  mkDataModule (hparams m) (train_transform m) (val_transform m) (test_transform m)
    (ds_train m) (ds_val m) (ds_test m) d (data_val m) (data_test m) (data_predict m).

Definition set_data_val (d : option Dataset) (m : DataModule) : DataModule :=
  mkDataModule (hparams m) (train_transform m) (val_transform m) (test_transform m)
    (ds_train m) (ds_val m) (ds_test m) (data_train m) d (data_test m) (data_predict m).

Definition set_data_test (d : option Dataset) (m : DataModule) : DataModule :=
  mkDataModule (hparams m) (train_transform m) (val_transform m) (test_transform m)
    (ds_train m) (ds_val m) (ds_test m) (data_train m) (data_val m) d (data_predict m).

Definition set_data_predict (d : option Dataset) (m : DataModule) : DataModule :=
  mkDataModule (hparams m) (train_transform m) (val_transform m) (test_transform m)
    (ds_train m) (ds_val m) (ds_test m) (data_train m) (data_val m) (data_test m) d.

(** The four partition roles; a role names the field a handle is stored in
    and the place in [setup] that opens it. *)
Inductive Role : Type := Train | Validation | Test | Predict.

Definition Role_eqb (a b : Role) : bool :=
  match a, b with
  | Train, Train | Validation, Validation | Test, Test | Predict, Predict => true
  | _, _ => false
  end.

Definition slot (r : Role) (m : DataModule) : option Dataset :=
  match r with
  | Train => data_train m
  | Validation => data_val m
  | Test => data_test m
  | Predict => data_predict m
  end.

(** ** Exceptions and the store *)

Inductive Exn : Type :=
| ValueError (msg : string)
| TypeError (msg : string)
| AdapterError (msg : string).

Inductive Outcome (A : Type) : Type :=
| Returned (a : A)
| Raised (e : Exn).
Arguments Returned {A} a.
Arguments Raised {A} e.

(** One invocation of the source adapter: the role whose block of [setup]
    made the call, and the two arguments passed. *)
Record Call : Type := mkCall {
  call_role : Role;
  call_data_dir : Source;
  call_transform : Compose
}.

(** The store: the object and the adapter calls made so far, oldest first. *)
Record Store : Type := mkStore {
  self : DataModule;
  calls : list Call
}.

(** The adapter's class is not part of the module under study; it is a
    parameter.  Given the number of calls made before, the source reference
    and the pipeline, it fails with an exception or yields the length of the
    dataset it opened. *)
Definition Adapter : Type := nat -> Source -> Compose -> Exn + nat.

(** ** The monad: state that survives a raised exception *)

Definition M (A : Type) : Type := Store -> Outcome A * Store.

Definition ret {A} (a : A) : M A := fun st => (Returned a, st).

Definition bind {A B} (c : M A) (k : A -> M B) : M B :=
  fun st =>
    match c st with
    | (Returned a, st') => k a st'
    | (Raised e, st') => (Raised e, st')
    end.

Definition raise {A} (e : Exn) : M A := fun st => (Raised e, st).

Definition get_self : M DataModule := fun st => (Returned (self st), st).

Definition update_self (f : DataModule -> DataModule) : M unit :=
  fun st => (Returned tt, mkStore (f (self st)) (calls st)).

Definition when (b : bool) (c : M unit) : M unit :=
  if b then c else ret tt.

Declare Scope py_scope.
Delimit Scope py_scope with py.
Notation "x <- c ;; k" := (bind c (fun x => k))
  (at level 100, c at next level, right associativity) : py_scope.
Notation "c ;;; k" := (bind c (fun _ => k))
  (at level 100, right associativity) : py_scope.
Local Open Scope py_scope.

(** ** Stage identifiers *)

(** [Optional[str]]. *)
Definition Stage : Type := option string.

Definition Stage_eqb (a b : Stage) : bool :=
  match a, b with
  | None, None => true
  | Some x, Some y => String.eqb x y
  | _, _ => false
  end.

(** Python's [stage in [...]]. *)
Definition stage_in (stage : Stage) (l : list Stage) : bool :=
  existsb (Stage_eqb stage) l.

Definition is_None {A} (o : option A) : bool :=
  match o with
  | None => true
  | Some _ => false
  end.

(** ** [__init__] *)

Definition default_input_size : Z * Z := (600%Z, 500%Z).
Definition default_batch_size : Z := 64%Z.
Definition default_num_workers : Z := 0%Z.
Definition default_pin_memory : bool := false.

Definition init (train_dir val_dir test_dir : Source) (input_size : Z * Z)
    (batch_size num_workers : Z) (pin_memory : bool) : DataModule :=
  {| hparams := mkHParams train_dir val_dir test_dir input_size batch_size
                  num_workers pin_memory;
     train_transform :=
       [ ToPILImage;
         Grayscale 1;
         Resize (256%Z, 256%Z);
         RandomRotation 20;
         ToTensor;
         Normalize [0%Z] [1%Z] ];
     val_transform :=
       [ ToPILImage;
         Grayscale 1;
         Resize (256%Z, 256%Z);
         ToTensor;
         Normalize [0%Z] [1%Z] ];
     test_transform :=
       [ ToPILImage;
         Grayscale 1;
         Resize (256%Z, 256%Z);
         ToTensor;
         Normalize [0%Z] [1%Z] ];
     ds_train := train_dir;
     ds_val := val_dir;
     ds_test := test_dir;
     data_train := None;
     data_val := None;
     data_test := None;
     data_predict := None |}.

(** A freshly constructed object, before any adapter call. *)
Definition fresh (m : DataModule) : Store := mkStore m [].

Definition num_clasess (m : DataModule) : Z := 3%Z.

(** ** [setup] *)

Section Setup.

Variable adapter : Adapter.

(** [DeepLakeDataset(data_dir=..., transform=...)], called from the block
    of role [r]: the call is recorded, then the adapter fails or yields a
    new object. *)
Definition DeepLakeDataset (r : Role) (data_dir : Source) (transform : Compose)
  : M Dataset :=
  fun st =>
    let n := List.length (calls st) in
    let st' := mkStore (self st) (calls st ++ [mkCall r data_dir transform]) in
    match adapter n data_dir transform with
    | inl e => (Raised e, st')
    | inr len => (Returned (mkDataset n data_dir transform len), st')
    end.

(** Lines 91-97. *)
Definition setup_train (stage : Stage) : M unit :=
  me <- get_self ;;
  when (stage_in stage [Some "train"; Some "fit"; None] && is_None (data_train me))
    (d <- DeepLakeDataset Train (ds_train me) (train_transform me) ;;
     update_self (set_data_train (Some d)) ;;;
     when (ds_len d =? 0) (raise (ValueError "Train dataset is empty."))).

(** Lines 100-106. *)
Definition setup_val : M unit :=
  me <- get_self ;;
  when (is_None (data_val me))
    (d <- DeepLakeDataset Validation (ds_val me) (val_transform me) ;;
     update_self (set_data_val (Some d)) ;;;
     when (ds_len d =? 0) (raise (ValueError "Validation dataset is empty."))).

(** Lines 107-113. *)
Definition setup_test : M unit :=
  me <- get_self ;;
  when (is_None (data_test me))
    (d <- DeepLakeDataset Test (ds_test me) (test_transform me) ;;
     update_self (set_data_test (Some d)) ;;;
     when (ds_len d =? 0) (raise (ValueError "Test dataset is empty."))).

(** Lines 115-122. *)
Definition setup_predict (stage : Stage) : M unit :=
  when (Stage_eqb stage (Some "predict"))
    (me <- get_self ;;
     when (is_None (data_test me))
       (d <- DeepLakeDataset Predict (ds_test me) (test_transform me) ;;
        update_self (set_data_predict (Some d)) ;;;
        when (ds_len d =? 0) (raise (ValueError "Predict dataset is empty.")))).

Definition setup (stage : Stage) : M unit :=
  setup_train stage ;;;
  when (stage_in stage [Some "validation"; Some "fit"; None])
    (setup_val ;;; setup_test) ;;;
  setup_predict stage.

(** A sequence of [setup] calls by a caller that goes on after an
    exception (the state reached by a caller that stops at the first
    exception is the state reached here on a prefix of the sequence). *)
Fixpoint setups (stages : list Stage) (st : Store) : Store :=
  match stages with
  | [] => st
  | stage :: rest => setups rest (snd (setup stage st))
  end.

End Setup.

(** ** Loader getters *)

(** The keyword arguments the getters pass to [DataLoader(...)]. *)
Record LoaderArgs : Type := mkLoaderArgs {
  dataset : option Dataset;
  dl_batch_size : Z;
  dl_num_workers : Z;
  dl_pin_memory : bool;
  shuffle : bool
}.

(** Calling a function of a library: its outcome, the store untouched. *)
Definition call {A} (o : Outcome A) : M A := fun st => (o, st).

Section Loaders.

(** The loader class is a library class; the getters are embedded over any
    constructor [DataLoader], yielding loaders of some type [L]. *)
Context {L : Type}.
Variable DataLoader : LoaderArgs -> Outcome L.

Definition train_dataloader : M L :=
  me <- get_self ;;
  call (DataLoader {| dataset := data_train me;
                      dl_batch_size := batch_size (hparams me);
                      dl_num_workers := num_workers (hparams me);
                      dl_pin_memory := pin_memory (hparams me);
                      shuffle := true |}).

Definition val_dataloader : M L :=
  me <- get_self ;;
  call (DataLoader {| dataset := data_val me;
                      dl_batch_size := batch_size (hparams me);
                      dl_num_workers := num_workers (hparams me);
                      dl_pin_memory := pin_memory (hparams me);
                      shuffle := false |}).

Definition test_dataloader : M L :=
  me <- get_self ;;
  call (DataLoader {| dataset := data_test me;
                      dl_batch_size := batch_size (hparams me);
                      dl_num_workers := num_workers (hparams me);
                      dl_pin_memory := pin_memory (hparams me);
                      shuffle := false |}).

(** The getter of a role that has one ([predict] has none in the source). *)
Definition dataloader_of (r : Role) : option (M L) :=
  match r with
  | Train => Some train_dataloader
  | Validation => Some val_dataloader
  | Test => Some test_dataloader
  | Predict => None
  end.

End Loaders.

(** ** The loader library (torch.utils.data) *)

(** Modelled from the spec: the class [DataLoader] is the loader library's
    (torch.utils.data) and is not under src/; the specification's loader
    factory takes a partition and the four configuration values and gives a
    restartable batch iterator.  Construction keeps the arguments.  With
    [shuffle=False] the sequential sampler only stores the dataset, so
    nothing about the dataset is looked at before iteration; with
    [shuffle=True] the random sampler takes the dataset's length when it is
    built.  The batch sampler refuses a batch size that is not positive, the
    loader a negative worker count. *)
Definition torch_DataLoader (a : LoaderArgs) : Outcome LoaderArgs :=
  if (dl_num_workers a <? 0)%Z then
    Raised (ValueError "num_workers option should be non-negative")
  else if shuffle a && is_None (dataset a) then
    Raised (TypeError "object of type 'NoneType' has no len()")
  else if shuffle a && match dataset a with Some d => ds_len d =? 0 | None => false end then
    Raised (ValueError "num_samples should be a positive integer value")
  else if (dl_batch_size a <=? 0)%Z then
    Raised (ValueError "batch_size should be a positive integer value")
  else Returned a.

(** Modelled from the spec: the samplers and the batch sampler of the loader
    library, after section 4.4 (batches of [batch_size] in sampler order, the
    last one possibly smaller; insertion order without shuffling, a new
    random permutation at each restart with it).

    Sample indices in insertion order. *)
Definition SequentialSampler (n : nat) : list nat := seq 0 n.

Definition insert_at (k x : nat) (l : list nat) : list nat :=
  firstn k l ++ x :: skipn k l.

(** A permutation of [0 .. n-1] drawn from the generator [g], whose [i]-th
    value places index [i] among the indices before it. *)
Fixpoint randperm (g : nat -> nat) (n : nat) : list nat :=
  match n with
  | 0 => []
  | S m => insert_at (g m mod S m) m (randperm g m)
  end.

Definition RandomSampler (g : nat -> nat) (n : nat) : list nat := randperm g n.

(** The batch sampler with [drop_last=False]: indices are appended to the
    current batch, which is emitted when it holds [B] of them; a non-empty
    remainder is emitted at the end. *)
Fixpoint BatchSampler_from (B : nat) (batch sampler : list nat) : list (list nat) :=
  match sampler with
  | [] => if 0 <? List.length batch then [batch] else []
  | idx :: rest =>
      let batch' := batch ++ [idx] in
      if List.length batch' =? B
      then batch' :: BatchSampler_from B [] rest
      else BatchSampler_from B batch' rest
  end.

Definition BatchSampler (B : nat) (sampler : list nat) : list (list nat) :=
  BatchSampler_from B [] sampler.

(** Modelled from the spec: one full iteration of a loader, as the batches of
    sample indices it yields.  [g] is the state of the random generator at
    this restart; it is consulted only when [shuffle] is set.  Iterating over
    a [None] dataset fails when its length is asked for. *)
Definition loader_iter (g : nat -> nat) (a : LoaderArgs) : Outcome (list (list nat)) :=
  match dataset a with
  | None => Raised (TypeError "object of type 'NoneType' has no len()")
  | Some d =>
      if (dl_batch_size a <=? 0)%Z then
        Raised (ValueError "batch_size should be a positive integer value")
      else
        Returned (BatchSampler (Z.to_nat (dl_batch_size a))
                    (if shuffle a then RandomSampler g (ds_len d)
                     else SequentialSampler (ds_len d)))
  end.

(** ** Pipelines by role *)

(** The pipeline [setup] hands to the adapter in the block of each role. *)
Definition transform_for (r : Role) (m : DataModule) : Compose :=
  match r with
  | Train => train_transform m
  | Validation => val_transform m
  | Test => test_transform m
  | Predict => test_transform m
  end.

(** The source reference [setup] hands to the adapter in the block of each
    role. *)
Definition source_for (r : Role) (m : DataModule) : Source :=
  match r with
  | Train => ds_train m
  | Validation => ds_val m
  | Test => ds_test m
  | Predict => ds_test m
  end.

(** The stages of a pipeline as the specification names them. *)
Inductive PipelineStage : Type :=
| SingleChannel (channels : Z)
| FixedResize (height width : Z)
| BoundedRotation (lo hi : Z)
| NormalizedTensor (mean std : list Z).

(** Reading a [Compose] as stages: [ToPILImage] followed by [Grayscale] is
    the single-channel conversion, [ToTensor] followed by [Normalize] the
    normalized tensor conversion, [RandomRotation d] draws an angle in
    [-d, d]; any other shape is not a pipeline of the specification. *)
Fixpoint stages_of (c : Compose) : option (list PipelineStage) :=
  match c with
  | [] => Some []
  | Resize (h, w) :: rest => option_map (cons (FixedResize h w)) (stages_of rest)
  | RandomRotation d :: rest =>
      option_map (cons (BoundedRotation (- d) d)) (stages_of rest)
  | ToPILImage :: rest =>
      match rest with
      | Grayscale n :: rest' => option_map (cons (SingleChannel n)) (stages_of rest')
      | _ => None
      end
  | ToTensor :: rest =>
      match rest with
      | Normalize mean std :: rest' =>
          option_map (cons (NormalizedTensor mean std)) (stages_of rest')
      | _ => None
      end
  | _ => None
  end.

(** The pipeline of each role in the specification's words. *)
Definition spec_pipeline (r : Role) : list PipelineStage :=
  match r with
  | Train =>
      [ SingleChannel 1; FixedResize 256 256; BoundedRotation (-20) 20;
        NormalizedTensor [0%Z] [1%Z] ]
  | _ =>
      [ SingleChannel 1; FixedResize 256 256; NormalizedTensor [0%Z] [1%Z] ]
  end.

(** [Normalize] on one value of a channel: [(x - mean) / std]. *)
Definition normalize_value (mean std : Z) (x : Q) : Q :=
  ((x - inject_Z mean) / inject_Z std)%Q.

(** ** Resolution state *)

Definition resolved (r : Role) (st : Store) : Prop :=
  exists d, slot r (self st) = Some d.

(** The adapter calls made for role [r] among [cs]. *)
Definition calls_for (r : Role) (cs : list Call) : list Call :=
  filter (fun c => Role_eqb (call_role c) r) cs.

(** The calls a run from [st] to [st'] added. *)
Definition new_calls (st st' : Store) : list Call :=
  skipn (List.length (calls st)) (calls st').

(** The field tested by the guard of each role's block in [setup]: the
    block of [predict] tests [data_test], not [data_predict]. *)
Definition gate (r : Role) (m : DataModule) : option Dataset :=
  match r with
  | Train => data_train m
  | Validation => data_val m
  | Test => data_test m
  | Predict => data_test m
  end.

(** The adapter call made by the block of role [r]. *)
Definition call_of (r : Role) (m : DataModule) : Call :=
  mkCall r (source_for r m) (transform_for r m).

(** The message of the [ValueError] raised by the block of role [r]. *)
Definition empty_message (r : Role) : string :=
  match r with
  | Train => "Train dataset is empty."
  | Validation => "Validation dataset is empty."
  | Test => "Test dataset is empty."
  | Predict => "Predict dataset is empty."
  end.

(** The roles whose block the stage tests of [setup] let run, in the order
    of the blocks. *)
Definition required (stage : Stage) : list Role :=
  (if stage_in stage [Some "train"; Some "fit"; None] then [Train] else []) ++
  (if stage_in stage [Some "validation"; Some "fit"; None] then [Validation; Test] else []) ++
  (if Stage_eqb stage (Some "predict") then [Predict] else []).

(** The specification's resolution of one role: the adapter is invoked on
    the role's source reference and pipeline, the handle is stored in the
    role's slot, and a handle of length 0 is an error naming the role. *)
Definition set_slot (r : Role) (d : option Dataset) (m : DataModule) : DataModule :=
  match r with
  | Train => set_data_train d m
  | Validation => set_data_val d m
  | Test => set_data_test d m
  | Predict => set_data_predict d m
  end.

Definition spec_resolve (adapter : Adapter) (r : Role) : M unit :=
  me <- get_self ;;
  d <- DeepLakeDataset adapter r (source_for r me) (transform_for r me) ;;
  update_self (set_slot r (Some d)) ;;;
  when (ds_len d =? 0) (raise (ValueError (empty_message r))).

Fixpoint spec_resolve_all (adapter : Adapter) (roles : list Role) : M unit :=
  match roles with
  | [] => ret tt
  | r :: rest => spec_resolve adapter r ;;; spec_resolve_all adapter rest
  end.

(** The roles a stage requires whose guard field is unresolved, in block
    order. *)
Definition to_open (stage : Stage) (m : DataModule) : list Role :=
  filter (fun r => is_None (gate r m)) (required stage).

(** The specification's [setup]: each required, unresolved partition is
    resolved in turn; the first failure ends the call. *)
Definition spec_setup (adapter : Adapter) (stage : Stage) : M unit :=
  fun st => spec_resolve_all adapter (to_open stage (self st)) st.

(** The stage identifiers [setup] tests for. *)
Definition known_stages : list Stage :=
  [Some "train"; Some "fit"; Some "validation"; Some "predict"; None].

(** The fields assigned once by [__init__] and never again. *)
Definition config (m : DataModule)
  : HParams * Compose * Compose * Compose * Source * Source * Source :=
  (hparams m, train_transform m, val_transform m, test_transform m,
   ds_train m, ds_val m, ds_test m).

(** [ceil (n / b)]. *)
Definition ceil_div (n b : nat) : nat :=
  n / b + (if n mod b =? 0 then 0 else 1).

(** ** Provenance of handles *)

(** The handle [d] is the object made by the adapter call number [ds_id d],
    which was the call of role [r], on that role's source and pipeline. *)
Definition opened_for (r : Role) (d : Dataset) (st : Store) : Prop :=
  nth_error (calls st) (ds_id d) = Some (call_of r (self st)) /\
  ds_data_dir d = source_for r (self st) /\
  ds_transform d = transform_for r (self st).

Definition provenance (st : Store) : Prop :=
  forall r d, slot r (self st) = Some d -> opened_for r d st.

(** ** Sample inputs *)

(** An adapter that always succeeds, the length it reports being fixed by
    the source reference. *)
Definition sized_adapter (len_of : Source -> nat) : Adapter :=
  fun _ src _ => inr (len_of src).

Definition sample_module : DataModule :=
  init (LocalPath "data/train") (LocalPath "data/val") (LocalPath "data/test")
    default_input_size 4 default_num_workers default_pin_memory.

(** Ten training samples, six validation samples, five test samples. *)
Definition sample_sizes (src : Source) : nat :=
  match src with
  | LocalPath p =>
      if String.eqb p "data/train" then 10
      else if String.eqb p "data/val" then 6
      else 5
  | DeeplakeHandle _ => 0
  end.

(** As [sample_sizes], with an empty validation source. *)
Definition empty_val_sizes (src : Source) : nat :=
  match src with
  | LocalPath p =>
      if String.eqb p "data/train" then 10
      else if String.eqb p "data/val" then 0
      else 5
  | DeeplakeHandle _ => 0
  end.

(** Two states of the random generator. *)
Definition gen_zero : nat -> nat := fun _ => 0.
Definition gen_id : nat -> nat := fun i => i.

(** An adapter whose first call fails and whose later calls succeed. *)
Definition flaky_adapter : Adapter :=
  fun n src _ =>
    if n =? 0 then inl (AdapterError "source unreachable")
    else inr (sample_sizes src).

(** ** Basic facts *)

Lemma Role_eqb_eq (a b : Role) : Role_eqb a b = true <-> a = b.
Proof. destruct a, b; simpl; split; intros H; try reflexivity; discriminate H. Qed.

Lemma new_calls_app (cs l : list Call) (m m' : DataModule) :
  new_calls (mkStore m cs) (mkStore m' (cs ++ l)) = l.
Proof.
  unfold new_calls; simpl.
  rewrite skipn_app, skipn_all, Nat.sub_diag. reflexivity.
Qed.

Lemma new_calls_same (cs : list Call) (m m' : DataModule) :
  new_calls (mkStore m cs) (mkStore m' cs) = [].
Proof. unfold new_calls; simpl. apply skipn_all. Qed.

Section SetupFacts.

Variable adapter : Adapter.

Ltac crunch :=
  cbn [self calls fst snd data_train data_val data_test data_predict
       ds_train ds_val ds_test train_transform val_transform test_transform
       hparams ds_len is_None andb Nat.eqb].

Ltac unfold_setup :=
  unfold setup, setup_train, setup_val, setup_test, setup_predict,
    DeepLakeDataset, bind, when, get_self, update_self, raise, ret,
    set_data_train, set_data_val, set_data_test, set_data_predict;
  crunch.

Ltac step_setup :=
  match goal with
  | |- context [stage_in ?s ?l] => destruct (stage_in s l) eqn:?
  | |- context [Stage_eqb ?s ?t] => destruct (Stage_eqb s t) eqn:?
  | |- context [match adapter ?n ?s ?t with _ => _ end] =>
      destruct (adapter n s t) as [?|[|?]] eqn:?
  end;
  crunch.

(** The three stage tests of [setup] on any identifier: at most the
    combinations of the five identifiers tested for. *)
Lemma stage_cases (stage : Stage) :
  let g1 := stage_in stage [Some "train"; Some "fit"; None] in
  let g2 := stage_in stage [Some "validation"; Some "fit"; None] in
  let g3 := Stage_eqb stage (Some "predict") in
  (g1 = true /\ g2 = false /\ g3 = false) \/
  (g1 = true /\ g2 = true /\ g3 = false) \/
  (g1 = false /\ g2 = true /\ g3 = false) \/
  (g1 = false /\ g2 = false /\ g3 = true) \/
  (g1 = false /\ g2 = false /\ g3 = false).
Proof.
  destruct stage as [s|]; cbv zeta; [ | right; left; repeat split ].
  unfold stage_in, existsb, Stage_eqb.
  destruct (String.eqb s "train") eqn:Ht.
  { apply String.eqb_eq in Ht; subst s. left; repeat split. }
  destruct (String.eqb s "fit") eqn:Hf.
  { apply String.eqb_eq in Hf; subst s. right; left; repeat split. }
  destruct (String.eqb s "validation") eqn:Hv.
  { apply String.eqb_eq in Hv; subst s. right; right; left; repeat split. }
  destruct (String.eqb s "predict") eqn:Hp; simpl; tauto.
Qed.

Ltac split_stage stage :=
  let H := fresh "Hstage" in
  pose proof (stage_cases stage) as H; cbv zeta in H;
  unfold required;
  destruct H as [H|[H|[H|[H|H]]]]; destruct H as (Hg1 & Hg2 & Hg3);
  rewrite ?Hg1, ?Hg2, ?Hg3; crunch.

Ltac split_store st :=
  let m := fresh "m" in
  let cs := fresh "cs" in
  destruct st as [m cs];
  destruct m as [hp tf1 tf2 tf3 s1 s2 s3 [d1|] [d2|] [d3|] dp].

Ltac tidy_calls :=
  repeat rewrite <- app_assoc;
  repeat rewrite new_calls_app;
  repeat rewrite new_calls_same;
  cbn [app].

Lemma setup_calls_grow (stage : Stage) (st : Store) :
  calls (snd (setup adapter stage st)) =
  calls st ++ new_calls st (snd (setup adapter stage st)).
Proof.
  split_store st; unfold_setup; repeat step_setup; tidy_calls;
    try reflexivity; symmetry; apply app_nil_r.
Qed.

Ltac solve_roles :=
  repeat (intros [ | | | ] || intro);
  cbn [In gate slot data_train data_val data_test data_predict] in *;
  repeat match goal with
    | H : ~ (_ \/ _) |- _ => try (exfalso; apply H; tauto); clear H
    | H : ~ False |- _ => clear H
    | H : _ \/ _ |- _ => destruct H
    | H : False |- _ => destruct H
    | H : Some _ = None |- _ => discriminate H
    | H : ?x <> ?x |- _ => exfalso; apply H; reflexivity
    | H : _ = _ :> Role |- _ => discriminate H
    | H : Raised _ = Returned _ |- _ => discriminate H
    end.

(** What one [setup] call does to any store, for any stage: calls are only
    appended; a slot outside the required set keeps its value; every call
    made is the call of a required role whose guard field was unresolved, at
    most once per role; a role whose guard field is resolved keeps its slot;
    and when the call returns, each required role whose guard field was
    unresolved has been opened and holds a non-empty handle. *)
Lemma setup_step (stage : Stage) (st : Store) :
  let o := fst (setup adapter stage st) in
  let st' := snd (setup adapter stage st) in
  let added := new_calls st st' in
  calls st' = calls st ++ added /\
  (forall r, ~ In r (required stage) -> slot r (self st') = slot r (self st)) /\
  Forall (fun c => In (call_role c) (required stage) /\
                   gate (call_role c) (self st) = None /\
                   c = call_of (call_role c) (self st)) added /\
  NoDup (map call_role added) /\
  (forall r, gate r (self st) <> None -> slot r (self st') = slot r (self st)) /\
  (o = Returned tt ->
   forall r, In r (required stage) -> gate r (self st) = None ->
     In (call_of r (self st)) added /\
     exists d, slot r (self st') = Some d /\
               ds_data_dir d = source_for r (self st) /\
               ds_transform d = transform_for r (self st) /\
               0 < ds_len d).
Proof.
  cbv zeta.
  split; [ apply setup_calls_grow | ].
  split_store st; unfold_setup; split_stage stage; repeat step_setup; tidy_calls;
    (split; [ solve_roles; reflexivity | ]);
    (split; [ repeat constructor; simpl; tauto | ]);
    (split; [ repeat constructor; simpl; intuition discriminate | ]);
    (split; [ solve_roles; reflexivity | ]);
    solve_roles;
    (split; [ simpl; tauto | ]);
    eexists; cbn [slot data_train data_val data_test data_predict];
    (split; [ reflexivity | ]); cbn; repeat split; lia.
Qed.

(** *** What a call resolves *)

Ltac norm_index :=
  rewrite ?length_app, ?Nat.add_0_r, <- ?Nat.add_assoc in *;
  cbn [List.length Nat.add call_role call_data_dir call_transform] in *.

Ltac unfold_resolve :=
  unfold spec_setup, to_open;
  cbn [self filter gate is_None app data_train data_val data_test];
  cbn [spec_resolve_all]; unfold spec_resolve, set_slot;
  cbn [source_for transform_for empty_message].

(** [setup] is the resolution, in block order, of the required roles whose
    guard field is unresolved. *)
Lemma setup_resolves_in_order (stage : Stage) (st : Store) :
  setup adapter stage st = spec_setup adapter stage st.
Proof.
  unfold spec_setup, to_open.
  split_store st; unfold_setup; split_stage stage; unfold_resolve;
    unfold_setup; repeat step_setup; reflexivity.
Qed.

(** When every adapter call a [setup] call makes yields a non-empty handle,
    the call returns, having opened exactly the required roles whose guard
    field was unresolved, in block order. *)
Lemma setup_returns_when_opens_succeed (stage : Stage) (st : Store) :
  let o := fst (setup adapter stage st) in
  let added := new_calls st (snd (setup adapter stage st)) in
  let n := List.length (calls st) in
  (forall i c, nth_error added i = Some c ->
     exists len,
       adapter (n + i) (call_data_dir c) (call_transform c) = inr (S len)) ->
  o = Returned tt /\ map call_role added = to_open stage (self st).
Proof.
  cbv zeta. unfold to_open.
  split_store st; unfold_setup; split_stage stage; repeat step_setup;
    tidy_calls; cbn [filter gate is_None app data_train data_val data_test];
    intros H;
    first [ split; reflexivity
          | exfalso; destruct (H 0 _ eq_refl) as [len Hl]; norm_index; congruence
          | exfalso; destruct (H 1 _ eq_refl) as [len Hl]; norm_index; congruence
          | exfalso; destruct (H 2 _ eq_refl) as [len Hl]; norm_index; congruence ].
Qed.

(** C2.  Stage scoping of [setup].  The stage tests let the train block run
    for ['train'], the validation and test blocks for ['validation'], the
    predict block for ['predict'], and train, validation and test for [None].
    For any stage and store, [setup] is exactly the specification's
    resolution, in block order, of the required roles whose guard field is
    unresolved (for predict: [data_test]), each from its own source reference
    with its own pipeline (for predict: those of test), the first failure
    ending the call; when every adapter call made yields a non-empty handle
    the call returns, having opened exactly those roles.  Moreover: calls
    are only appended; a slot outside the required set keeps its value; every
    adapter call made is the call of a required role whose guard field was
    unresolved, at most once per role; a role whose guard field is already
    resolved keeps its slot and is not opened; and when the call returns,
    each required role whose guard field was unresolved has been opened once
    and holds a non-empty handle on its source. *)
Theorem setup_stage_scoping (stage : Stage) (st : Store) :
  let o := fst (setup adapter stage st) in
  let st' := snd (setup adapter stage st) in
  let added := new_calls st st' in
  let n := List.length (calls st) in
  (required (Some "train") = [Train] /\
   required (Some "validation") = [Validation; Test] /\
   required (Some "predict") = [Predict] /\
   required None = [Train; Validation; Test]) /\
  setup adapter stage st = spec_setup adapter stage st /\
  ((forall i c, nth_error added i = Some c ->
      exists len,
        adapter (n + i) (call_data_dir c) (call_transform c) = inr (S len)) ->
   o = Returned tt /\ map call_role added = to_open stage (self st)) /\
  calls st' = calls st ++ added /\
  (forall r, ~ In r (required stage) -> slot r (self st') = slot r (self st)) /\
  Forall (fun c => In (call_role c) (required stage) /\
                   gate (call_role c) (self st) = None /\
                   c = call_of (call_role c) (self st)) added /\
  NoDup (map call_role added) /\
  (forall r, gate r (self st) <> None -> slot r (self st') = slot r (self st)) /\
  (o = Returned tt ->
   forall r, In r (required stage) -> gate r (self st) = None ->
     In (call_of r (self st)) added /\
     exists d, slot r (self st') = Some d /\
               ds_data_dir d = source_for r (self st) /\
               ds_transform d = transform_for r (self st) /\
               0 < ds_len d).
Proof.
  cbv zeta. split.
  - repeat split.
  - split; [ apply setup_resolves_in_order | ].
    split; [ exact (setup_returns_when_opens_succeed stage st) | ].
    exact (setup_step stage st).
Qed.

(** *** Sequences of calls *)

Lemma new_calls_trans (st st1 st2 : Store) :
  calls st1 = calls st ++ new_calls st st1 ->
  calls st2 = calls st1 ++ new_calls st1 st2 ->
  new_calls st st2 = new_calls st st1 ++ new_calls st1 st2.
Proof.
  intros H1 H2.
  unfold new_calls at 1. rewrite H2, H1, <- app_assoc.
  rewrite skipn_app, skipn_all, Nat.sub_diag. reflexivity.
Qed.

Lemma setups_calls_grow (stages : list Stage) (st : Store) :
  calls (setups adapter stages st) =
  calls st ++ new_calls st (setups adapter stages st).
Proof.
  revert st; induction stages as [|stage rest IH]; intros st; simpl.
  - unfold new_calls. rewrite skipn_all. symmetry; apply app_nil_r.
  - pose proof (setup_calls_grow stage st) as H1.
    pose proof (IH (snd (setup adapter stage st))) as H2.
    rewrite (new_calls_trans _ _ _ H1 H2), app_assoc, <- H1. exact H2.
Qed.

Lemma gated_calls_for (m : DataModule) (stage : Stage) (l : list Call) (r : Role) :
  Forall (fun c => In (call_role c) (required stage) /\
                   gate (call_role c) m = None /\
                   c = call_of (call_role c) m) l ->
  gate r m <> None ->
  calls_for r l = [].
Proof.
  intros Hall Hg. induction Hall as [|c l (_ & Hc & _) _ IH]; simpl.
  - reflexivity.
  - destruct (Role_eqb (call_role c) r) eqn:E.
    + apply Role_eqb_eq in E. subst r. contradiction.
    + exact IH.
Qed.

Lemma calls_for_app (r : Role) (l1 l2 : list Call) :
  calls_for r (l1 ++ l2) = calls_for r l1 ++ calls_for r l2.
Proof. apply filter_app. Qed.

(** A role whose guard field is resolved stays so, with the same slot. *)
Lemma setup_keeps_gated (stage : Stage) (st : Store) (r : Role) :
  gate r (self st) <> None ->
  slot r (self (snd (setup adapter stage st))) = slot r (self st) /\
  gate r (self (snd (setup adapter stage st))) <> None /\
  calls_for r (new_calls st (snd (setup adapter stage st))) = [].
Proof.
  intros Hg.
  destruct (setup_step stage st) as (_ & _ & Hall & _ & Hkeep & _).
  split; [ apply Hkeep; exact Hg | ].
  split; [ | eapply gated_calls_for; eassumption ].
  destruct r;
    [ pose proof (Hkeep Train) as K | pose proof (Hkeep Validation) as K
    | pose proof (Hkeep Test) as K | pose proof (Hkeep Test) as K ];
    cbn [gate slot] in *; rewrite (K Hg); exact Hg.
Qed.

(** C1 (amended).  For every sequence of [setup] calls, with the same or
    different stages, a resolved train, validation or test partition is never
    opened again and keeps its handle; the same holds of the predict slot
    once the test partition is resolved (the predict block is guarded by
    [data_test], not by its own slot). *)
Theorem setup_idempotent_when_gated (stages : list Stage) (st : Store)
    (r : Role) (d : Dataset) :
  slot r (self st) = Some d ->
  r <> Predict \/ resolved Test st ->
  slot r (self (setups adapter stages st)) = Some d /\
  calls_for r (new_calls st (setups adapter stages st)) = [].
Proof.
  intros Hslot Hguard.
  assert (Hg : gate r (self st) <> None).
  { destruct Hguard as [Hr|[d' Hd']].
    - destruct r; cbn [gate slot] in *; try congruence.
    - destruct r; cbn [gate slot] in *; congruence. }
  clear Hguard. revert st Hslot Hg.
  induction stages as [|stage rest IH]; intros st Hslot Hg; simpl.
  - split; [ exact Hslot | ]. unfold new_calls. rewrite skipn_all. reflexivity.
  - destruct (setup_keeps_gated stage st r Hg) as (Hs & Hg' & Hc).
    rewrite <- Hs in Hslot.
    destruct (IH _ Hslot Hg') as (IH1 & IH2).
    split; [ exact IH1 | ].
    rewrite (new_calls_trans st _ _ (setup_calls_grow stage st)
               (setups_calls_grow rest _)).
    rewrite calls_for_app, Hc, IH2. reflexivity.
Qed.

(** *** Failing calls *)

Ltac pick_call i H :=
  repeat (destruct i as [|i]; cbn [nth_error] in H; try discriminate H);
  injection H as H; rewrite <- H in *; clear H.

(** C3 (amended).  Emptiness gate: whenever, within a [setup] call, the
    adapter returns a handle of length 0 to the block of some role, that role
    is one the stage requires, [setup] raises the [ValueError] naming that
    role, and that adapter call is the last one of the [setup] call: nothing
    is retried and no later block runs. *)
Theorem setup_emptiness_gate (stage : Stage) (st : Store) (i : nat) (c : Call) :
  let o := fst (setup adapter stage st) in
  let st' := snd (setup adapter stage st) in
  let added := new_calls st st' in
  nth_error added i = Some c ->
  adapter (List.length (calls st) + i) (call_data_dir c) (call_transform c) = inr 0 ->
  In (call_role c) (required stage) /\
  o = Raised (ValueError (empty_message (call_role c))) /\
  List.length added = S i.
Proof.
  cbv zeta.
  split_store st; unfold_setup; split_stage stage; repeat step_setup; tidy_calls;
    intros Hn Ha; pick_call i Hn; norm_index;
    first [ congruence | repeat split; simpl; tauto ].
Qed.

(** No slot is ever emptied by [setup]. *)
Lemma setup_resolved_mono (stage : Stage) (st : Store) (r : Role) :
  resolved r st -> resolved r (snd (setup adapter stage st)).
Proof.
  unfold resolved.
  split_store st; destruct dp; unfold_setup; split_stage stage;
    repeat step_setup; destruct r; cbn [slot data_train data_val data_test data_predict];
    intros [x Hx]; try discriminate Hx; eexists; reflexivity.
Qed.

(** A failing adapter call ends the [setup] call with its exception. *)
Lemma setup_fails_at_once (stage : Stage) (st : Store) (i : nat) (c : Call) :
  let o := fst (setup adapter stage st) in
  let added := new_calls st (snd (setup adapter stage st)) in
  let n := List.length (calls st) in
  nth_error added i = Some c ->
  (forall e, adapter (n + i) (call_data_dir c) (call_transform c) = inl e ->
     o = Raised e /\ List.length added = S i) /\
  (adapter (n + i) (call_data_dir c) (call_transform c) = inr 0 ->
     o = Raised (ValueError (empty_message (call_role c))) /\
     List.length added = S i).
Proof.
  cbv zeta.
  split_store st; unfold_setup; split_stage stage; repeat step_setup; tidy_calls;
    intros Hn; pick_call i Hn; norm_index;
    (split; [ intros e' Ha | intros Ha ]);
    first [ congruence | split; [ first [ reflexivity | congruence ] | reflexivity ] ].
Qed.

(** When [setup] raises, the last adapter call is the one that failed, and
    the handles opened before it in the same call are in their slots. *)
Lemma setup_raise_shape (stage : Stage) (st : Store) (e : Exn) :
  let o := fst (setup adapter stage st) in
  let st' := snd (setup adapter stage st) in
  let added := new_calls st st' in
  let n := List.length (calls st) in
  o = Raised e ->
  (exists c, nth_error added (pred (List.length added)) = Some c /\
     (adapter (n + pred (List.length added)) (call_data_dir c) (call_transform c)
        = inl e \/
      adapter (n + pred (List.length added)) (call_data_dir c) (call_transform c)
        = inr 0 /\ e = ValueError (empty_message (call_role c)))) /\
  (forall j c, nth_error added j = Some c -> S j < List.length added ->
     exists d, slot (call_role c) (self st') = Some d /\
               ds_id d = n + j /\
               ds_data_dir d = call_data_dir c /\
               ds_transform d = call_transform c /\
               0 < ds_len d).
Proof.
  cbv zeta.
  split_store st; unfold_setup; split_stage stage; repeat step_setup; tidy_calls;
    intros He; try discriminate He; injection He as He; subst e;
    (split;
     [ eexists; split; [ reflexivity | ]; norm_index;
       first [ left; assumption | right; split; [ assumption | reflexivity ] ]
     | intros j c Hn Hlt; cbn [List.length] in Hlt;
       pick_call j Hn; try (exfalso; lia); norm_index;
       eexists; cbn [slot data_train data_val data_test data_predict];
       (split; [ reflexivity | ]); cbn [ds_id ds_data_dir ds_transform ds_len];
       repeat split; lia ]).
Qed.

(** C4.  Failure of a [setup] call.  A failing resolution (an adapter
    exception, or a handle of length 0) fails the whole call at once, with
    that exception and no later adapter call; and when a call raises, the
    exception is that of its last adapter call, every partition resolved
    before the call is still resolved (train, validation and test with the
    same handle), and each partition opened earlier in the same call is in
    its slot, non-empty: nothing is rolled back. *)
Theorem setup_failure_atomicity (stage : Stage) (st : Store) :
  let o := fst (setup adapter stage st) in
  let st' := snd (setup adapter stage st) in
  let added := new_calls st st' in
  let n := List.length (calls st) in
  (forall i c, nth_error added i = Some c ->
     (forall e, adapter (n + i) (call_data_dir c) (call_transform c) = inl e ->
        o = Raised e /\ List.length added = S i) /\
     (adapter (n + i) (call_data_dir c) (call_transform c) = inr 0 ->
        o = Raised (ValueError (empty_message (call_role c))) /\
        List.length added = S i)) /\
  (forall e, o = Raised e ->
     (exists c, nth_error added (pred (List.length added)) = Some c /\
        (adapter (n + pred (List.length added)) (call_data_dir c) (call_transform c)
           = inl e \/
         adapter (n + pred (List.length added)) (call_data_dir c) (call_transform c)
           = inr 0 /\ e = ValueError (empty_message (call_role c)))) /\
     (forall r, resolved r st -> resolved r st') /\
     (forall r d, r <> Predict -> slot r (self st) = Some d ->
        slot r (self st') = Some d) /\
     (forall j c, nth_error added j = Some c -> S j < List.length added ->
        exists d, slot (call_role c) (self st') = Some d /\
                  ds_id d = n + j /\
                  ds_data_dir d = call_data_dir c /\
                  ds_transform d = call_transform c /\
                  0 < ds_len d)).
Proof.
  cbv zeta. split.
  - intros i c Hn. exact (setup_fails_at_once stage st i c Hn).
  - intros e He.
    destruct (setup_raise_shape stage st e He) as (Hlast & Hearlier).
    split; [ exact Hlast | ].
    split; [ intros r; apply setup_resolved_mono | ].
    split; [ | exact Hearlier ].
    intros r d Hr Hslot.
    assert (Hg : gate r (self st) <> None)
      by (destruct r; cbn [gate slot] in *; congruence).
    destruct (setup_keeps_gated stage st r Hg) as (Hs & _).
    rewrite Hs. exact Hslot.
Qed.

(** *** Stage identifiers *)

Lemma Stage_eqb_eq (a b : Stage) : Stage_eqb a b = true <-> a = b.
Proof.
  destruct a as [x|], b as [y|]; simpl; split; intros H;
    try discriminate H; try reflexivity.
  - apply String.eqb_eq in H. congruence.
  - apply String.eqb_eq. congruence.
Qed.

Lemma stage_in_In (stage : Stage) (l : list Stage) :
  stage_in stage l = true <-> In stage l.
Proof.
  unfold stage_in. rewrite existsb_exists. split.
  - intros (x & Hx & E). apply Stage_eqb_eq in E. subst x. exact Hx.
  - intros H. exists stage. split; [ exact H | apply Stage_eqb_eq; reflexivity ].
Qed.

Lemma stage_in_false (stage : Stage) (l : list Stage) :
  ~ In stage l -> stage_in stage l = false.
Proof.
  intros H. destruct (stage_in stage l) eqn:E; [ | reflexivity ].
  apply stage_in_In in E. contradiction.
Qed.

(** C9 (amended).  [setup] does not validate its stage identifier: called
    with an identifier outside train, fit, validation, predict and [None],
    and other than ['test'] (a stage the class documents, about which
    nothing is said here), it opens nothing, leaves the store as it was,
    and returns normally. *)
Theorem setup_unknown_stage_noop (stage : Stage) (st : Store) :
  ~ In stage known_stages ->
  stage <> Some "test" ->
  setup adapter stage st = (Returned tt, st).
Proof.
  intros Hout _.
  assert (H1 : stage_in stage [Some "train"; Some "fit"; None] = false).
  { apply stage_in_false. intros H. apply Hout. unfold known_stages.
    destruct H as [H|[H|[H|[]]]]; subst stage; simpl; auto 10. }
  assert (H2 : stage_in stage [Some "validation"; Some "fit"; None] = false).
  { apply stage_in_false. intros H. apply Hout. unfold known_stages.
    destruct H as [H|[H|[H|[]]]]; subst stage; simpl; auto 10. }
  assert (H3 : Stage_eqb stage (Some "predict") = false).
  { destruct (Stage_eqb stage (Some "predict")) eqn:E; [ | reflexivity ].
    apply Stage_eqb_eq in E. exfalso. apply Hout. unfold known_stages.
    subst stage. simpl. auto 10. }
  unfold setup, setup_train, setup_predict, bind, when, get_self, ret.
  rewrite H1, H2, H3. reflexivity.
Qed.

(** *** The predict slot *)

Ltac eval_stage :=
  repeat match goal with
    | |- context [stage_in (Some ?s) ?l] =>
        let b := eval vm_compute in (stage_in (Some s) l) in
        change (stage_in (Some s) l) with b
    | |- context [stage_in None ?l] =>
        let b := eval vm_compute in (stage_in None l) in
        change (stage_in None l) with b
    | |- context [Stage_eqb (Some ?s) ?t] =>
        let b := eval vm_compute in (Stage_eqb (Some s) t) in
        change (Stage_eqb (Some s) t) with b
    | |- context [Stage_eqb None ?t] =>
        let b := eval vm_compute in (Stage_eqb None t) in
        change (Stage_eqb None t) with b
    end; crunch.

(** The store after [setup('predict')] while the test slot is unresolved. *)
Lemma setup_predict_unresolved_test (st : Store) :
  data_test (self st) = None ->
  let m := self st in
  let n := List.length (calls st) in
  snd (setup adapter (Some "predict") st) =
  mkStore
    (match adapter n (ds_test m) (test_transform m) with
     | inl _ => m
     | inr len =>
         set_data_predict (Some (mkDataset n (ds_test m) (test_transform m) len)) m
     end)
    (calls st ++ [call_of Predict m]).
Proof.
  cbv zeta. split_store st; cbn [self data_test]; intros H; try discriminate H;
    unfold_setup; eval_stage; repeat step_setup; reflexivity.
Qed.

(** With the test slot unresolved, a call for validation, fit or [None]
    opens the test source, unless it raised in the train or validation
    block. *)
Lemma setup_opens_unresolved_test (stage : Stage) (st : Store) :
  In stage [Some "validation"; Some "fit"; None] ->
  data_test (self st) = None ->
  let o := fst (setup adapter stage st) in
  let added := new_calls st (snd (setup adapter stage st)) in
  In (call_of Test (self st)) added \/
  exists e c, o = Raised e /\
              nth_error added (pred (List.length added)) = Some c /\
              In (call_role c) [Train; Validation].
Proof.
  cbv zeta. intros Hin.
  assert (Hg2 : stage_in stage [Some "validation"; Some "fit"; None] = true)
    by (apply stage_in_In; exact Hin).
  clear Hin.
  split_store st; cbn [self data_test]; intros H; try discriminate H;
    unfold_setup; rewrite Hg2; crunch; repeat step_setup; tidy_calls;
    first [ left; simpl; tauto
          | right; eexists; eexists; split; [ reflexivity | ];
            split; [ reflexivity | ]; simpl; tauto ].
Qed.

(** C10 (amended).  With the test slot unresolved, [setup('predict')] makes one
    adapter call, on the test source with the test pipeline, stores the
    opened handle in [data_predict] and leaves [data_test] unresolved.  So a
    repeated [setup('predict')] makes that call again, and a later call for
    validation, fit or [None] opens the test source again (unless it raised
    already in its train or validation block). *)
Theorem predict_uses_separate_slot (st : Store) :
  data_test (self st) = None ->
  let m := self st in
  let n := List.length (calls st) in
  let st1 := snd (setup adapter (Some "predict") st) in
  data_test (self st1) = None /\
  new_calls st st1 = [mkCall Predict (ds_test m) (test_transform m)] /\
  (forall len, adapter n (ds_test m) (test_transform m) = inr len ->
     data_predict (self st1) =
     Some (mkDataset n (ds_test m) (test_transform m) len)) /\
  new_calls st1 (snd (setup adapter (Some "predict") st1)) =
    [mkCall Predict (ds_test m) (test_transform m)] /\
  (forall stage, In stage [Some "validation"; Some "fit"; None] ->
     let o2 := fst (setup adapter stage st1) in
     let added2 := new_calls st1 (snd (setup adapter stage st1)) in
     In (mkCall Test (ds_test m) (test_transform m)) added2 \/
     exists e c, o2 = Raised e /\
                 nth_error added2 (pred (List.length added2)) = Some c /\
                 In (call_role c) [Train; Validation]).
Proof.
  intros Htest. cbv zeta.
  pose proof (setup_predict_unresolved_test st Htest) as H1. cbv zeta in H1.
  set (st1 := snd (setup adapter (Some "predict") st)) in *.
  assert (Htest1 : data_test (self st1) = None).
  { rewrite H1. cbn [self].
    destruct (adapter _ _ _); [ exact Htest | exact Htest ]. }
  assert (Hsrc : ds_test (self st1) = ds_test (self st) /\
                 test_transform (self st1) = test_transform (self st)).
  { rewrite H1. cbn [self]. destruct (adapter _ _ _); split; reflexivity. }
  destruct Hsrc as (Hsrc & Htf).
  split; [ exact Htest1 | ].
  split.
  { rewrite H1. destruct st as [m cs]. apply new_calls_app. }
  split.
  { intros len Hlen. rewrite H1, Hlen. reflexivity. }
  split.
  { pose proof (setup_predict_unresolved_test st1 Htest1) as H2. cbv zeta in H2.
    rewrite H2. destruct st1 as [m1 cs1]. rewrite new_calls_app.
    cbn [self] in *. unfold call_of. cbn [source_for transform_for].
    rewrite Hsrc, Htf. reflexivity. }
  intros stage Hin.
  pose proof (setup_opens_unresolved_test stage st1 Hin Htest1) as H3.
  cbv zeta in H3. unfold call_of in H3. cbn [source_for transform_for] in H3.
  rewrite Hsrc, Htf in H3. exact H3.
Qed.

(** *** The fields [setup] never assigns *)

Lemma setup_keeps_config (stage : Stage) (st : Store) :
  config (self (snd (setup adapter stage st))) = config (self st).
Proof.
  split_store st; unfold_setup; split_stage stage; repeat step_setup; reflexivity.
Qed.

Lemma config_call_of (m m' : DataModule) (r : Role) :
  config m' = config m -> call_of r m' = call_of r m.
Proof.
  unfold config. intros H. injection H as Hh H1 H2 H3 H4 H5 H6.
  unfold call_of. destruct r; cbn [source_for transform_for]; congruence.
Qed.

Lemma setups_keep_config (stages : list Stage) (st : Store) :
  config (self (setups adapter stages st)) = config (self st).
Proof.
  revert st; induction stages as [|stage rest IH]; intros st; simpl.
  - reflexivity.
  - rewrite IH. apply setup_keeps_config.
Qed.

(** Every adapter call of a sequence of [setup] calls is the call of its
    role: that role's source reference and pipeline. *)
Lemma setups_calls_by_role (stages : list Stage) (st : Store) :
  Forall (fun c => c = call_of (call_role c) (self st))
         (new_calls st (setups adapter stages st)).
Proof.
  revert st; induction stages as [|stage rest IH]; intros st; simpl.
  - unfold new_calls. rewrite skipn_all. constructor.
  - rewrite (new_calls_trans st _ _ (setup_calls_grow stage st)
               (setups_calls_grow rest _)).
    apply Forall_app. split.
    + destruct (setup_step stage st) as (_ & _ & Hall & _).
      eapply Forall_impl; [ | exact Hall ]. intros c (_ & _ & Hc). exact Hc.
    + eapply Forall_impl; [ | apply IH ]. cbv beta. intros c Hc.
      rewrite Hc at 1. apply config_call_of. apply setup_keeps_config.
Qed.

(** *** Calls that open nothing *)

(** With every required role's guard field resolved, [setup] returns at
    once and the store is the one it was given. *)
Lemma setup_gated_skip (stage : Stage) (st : Store) :
  (forall r, In r (required stage) -> gate r (self st) <> None) ->
  setup adapter stage st = (Returned tt, st).
Proof.
  split_store st; unfold_setup; split_stage stage; intros H;
    first [ reflexivity
          | exfalso; apply (H Train); [ simpl; tauto | reflexivity ]
          | exfalso; apply (H Validation); [ simpl; tauto | reflexivity ]
          | exfalso; apply (H Test); [ simpl; tauto | reflexivity ]
          | exfalso; apply (H Predict); [ simpl; tauto | reflexivity ] ].
Qed.

(** X1.  A [setup] call is a no-op returning normally exactly when every
    role its stage requires has its guard field resolved; in every other
    case it makes at least one adapter call. *)
Theorem setup_noop_iff_gated (stage : Stage) (st : Store) :
  ((forall r, In r (required stage) -> gate r (self st) <> None) <->
   setup adapter stage st = (Returned tt, st)) /\
  (~ (forall r, In r (required stage) -> gate r (self st) <> None) ->
   1 <= List.length (new_calls st (snd (setup adapter stage st)))).
Proof.
  split.
  - split; [ apply setup_gated_skip | ].
    intros Heq.
    assert (Hlen : List.length (calls (snd (setup adapter stage st))) =
                   List.length (calls st)) by (rewrite Heq; reflexivity).
    clear Heq. revert Hlen.
    split_store st; unfold_setup; split_stage stage; repeat step_setup;
      cbn [calls app]; rewrite ?length_app; cbn [List.length]; intros Hlen;
      try (exfalso; lia); solve_roles; discriminate.
  - split_store st; unfold_setup; split_stage stage; repeat step_setup;
      tidy_calls; cbn [app List.length]; intros H;
      first [ lia | exfalso; apply H; solve_roles; discriminate ].
Qed.

(** After a call that returned, the guard field of every required role is
    resolved; so is the guard field of predict when test was required. *)
Lemma setup_success_gates (stage : Stage) (st : Store) :
  fst (setup adapter stage st) = Returned tt ->
  (forall r, In r (required stage) -> r <> Predict ->
     gate r (self (snd (setup adapter stage st))) <> None) /\
  (In Test (required stage) ->
     gate Predict (self (snd (setup adapter stage st))) <> None).
Proof.
  split_store st; unfold_setup; split_stage stage; repeat step_setup;
    cbn [app]; intros Hret; try discriminate Hret;
    (split; solve_roles; try discriminate; try congruence).
Qed.

Lemma required_predict (stage : Stage) :
  In Predict (required stage) <-> Stage_eqb stage (Some "predict") = true.
Proof.
  unfold required.
  destruct (stage_in stage [Some "train"; Some "fit"; None]),
           (stage_in stage [Some "validation"; Some "fit"; None]),
           (Stage_eqb stage (Some "predict")); simpl; split; intros H;
    try reflexivity; try discriminate H; intuition discriminate.
Qed.

Lemma required_test (stage : Stage) :
  In stage [Some "validation"; Some "fit"; None] ->
  In Test (required stage).
Proof.
  intros H. apply stage_in_In in H. unfold required. rewrite H.
  apply in_or_app. right. simpl. tauto.
Qed.

(** X3.  After a [setup] call that returned, for a stage other than
    ['predict'], the same call again opens nothing and leaves the store as
    it is. *)
Theorem setup_repeat_noop (stage : Stage) (st : Store) :
  fst (setup adapter stage st) = Returned tt ->
  Stage_eqb stage (Some "predict") = false ->
  setup adapter stage (snd (setup adapter stage st)) =
  (Returned tt, snd (setup adapter stage st)).
Proof.
  intros Hret Hnp. apply setup_gated_skip. intros r Hin.
  destruct (setup_success_gates stage st Hret) as (Hgates & _).
  apply Hgates; [ exact Hin | ].
  intros ->. apply required_predict in Hin. congruence.
Qed.

(** X4.  After a [setup] call for validation, fit or [None] that returned,
    [setup('predict')] opens nothing: the test handle is the one in use. *)
Theorem setup_predict_after_test_noop (stage : Stage) (st : Store) :
  fst (setup adapter stage st) = Returned tt ->
  In stage [Some "validation"; Some "fit"; None] ->
  setup adapter (Some "predict") (snd (setup adapter stage st)) =
  (Returned tt, snd (setup adapter stage st)).
Proof.
  intros Hret Hin. apply setup_gated_skip.
  destruct (setup_success_gates stage st Hret) as (_ & Hpred).
  specialize (Hpred (required_test stage Hin)).
  intros [ | | | ] Hr; cbn in Hr;
    try (destruct Hr as [Hr|[]]; discriminate Hr).
  exact Hpred.
Qed.

(** X5.  After a [setup] call for fit or [None] that returned, the module
    is settled: no later sequence of [setup] calls, whatever the stages,
    changes the store or calls the adapter. *)
Theorem setup_full_then_frozen (stage : Stage) (st : Store)
    (stages : list Stage) :
  fst (setup adapter stage st) = Returned tt ->
  In stage [Some "fit"; None] ->
  setups adapter stages (snd (setup adapter stage st)) =
  snd (setup adapter stage st).
Proof.
  intros Hret Hin.
  destruct (setup_success_gates stage st Hret) as (Hgates & Hpred).
  assert (Hreq : required stage = [Train; Validation; Test])
    by (destruct Hin as [<-|[<-|[]]]; reflexivity).
  rewrite Hreq in Hgates, Hpred.
  set (st' := snd (setup adapter stage st)) in *.
  assert (Hall : forall r, gate r (self st') <> None).
  { intros [ | | | ].
    - apply Hgates; [ simpl; tauto | discriminate ].
    - apply Hgates; [ simpl; tauto | discriminate ].
    - apply Hgates; [ simpl; tauto | discriminate ].
    - apply Hpred. simpl; tauto. }
  clearbody st'. clear - Hall.
  induction stages as [|stage2 rest IH]; simpl.
  - reflexivity.
  - rewrite (setup_gated_skip stage2 st' (fun r _ => Hall r)). exact IH.
Qed.

(** X6.  [setup('fit')] and [setup(None)] are the same call, and either is
    [setup('train')] followed, when that returned, by
    [setup('validation')]. *)
Theorem setup_fit_decomposes (st : Store) :
  setup adapter (Some "fit") st = setup adapter None st /\
  setup adapter (Some "fit") st =
  (setup adapter (Some "train") ;;; setup adapter (Some "validation")) st.
Proof.
  split.
  - unfold_setup; eval_stage; reflexivity.
  - split_store st; unfold_setup; eval_stage; repeat step_setup; reflexivity.
Qed.

(** *** Sequences, again *)

Lemma setups_keep_gated (stages : list Stage) (st : Store) (r : Role) :
  gate r (self st) <> None ->
  slot r (self (setups adapter stages st)) = slot r (self st) /\
  calls_for r (new_calls st (setups adapter stages st)) = [].
Proof.
  revert st; induction stages as [|stage rest IH]; intros st Hg; simpl.
  - split; [ reflexivity | ]. unfold new_calls. rewrite skipn_all. reflexivity.
  - destruct (setup_keeps_gated stage st r Hg) as (Hs & Hg' & Hc).
    destruct (IH _ Hg') as (IH1 & IH2).
    split; [ rewrite IH1; exact Hs | ].
    rewrite (new_calls_trans st _ _ (setup_calls_grow stage st)
               (setups_calls_grow rest _)).
    rewrite calls_for_app, Hc, IH2. reflexivity.
Qed.

(** X7.  No sequence of [setup] calls, returning or raising, ever empties a
    slot: a resolved role, predict included, stays resolved. *)
Theorem setups_never_unresolve (stages : list Stage) (st : Store) (r : Role) :
  resolved r st -> resolved r (setups adapter stages st).
Proof.
  revert st; induction stages as [|stage rest IH]; intros st Hr; simpl.
  - exact Hr.
  - apply IH. apply setup_resolved_mono. exact Hr.
Qed.

(** X8.  A handle of length 0 is stored before [setup] raises: the slot of
    the failing role holds the empty handle afterwards, and for train,
    validation and test no later [setup] call opens that role again, so the
    emptiness error is raised at most once for it. *)
Theorem setup_caches_empty_handle (stage : Stage) (st : Store) (i : nat)
    (c : Call) (stages : list Stage) :
  let st' := snd (setup adapter stage st) in
  let n := List.length (calls st) in
  let d := mkDataset (n + i) (call_data_dir c) (call_transform c) 0 in
  nth_error (new_calls st st') i = Some c ->
  adapter (n + i) (call_data_dir c) (call_transform c) = inr 0 ->
  slot (call_role c) (self st') = Some d /\
  (call_role c <> Predict ->
   slot (call_role c) (self (setups adapter stages st')) = Some d /\
   calls_for (call_role c) (new_calls st' (setups adapter stages st')) = []).
Proof.
  cbv zeta. intros Hn Ha.
  assert (Hslot : slot (call_role c) (self (snd (setup adapter stage st))) =
                  Some (mkDataset (List.length (calls st) + i)
                          (call_data_dir c) (call_transform c) 0)).
  { revert Hn Ha.
    split_store st; unfold_setup; split_stage stage; repeat step_setup;
      tidy_calls; intros Hn Ha; pick_call i Hn; norm_index;
      first [ congruence | reflexivity ]. }
  split; [ exact Hslot | ].
  intros Hr.
  assert (Hg : gate (call_role c) (self (snd (setup adapter stage st))) <> None).
  { destruct (call_role c); cbn [gate slot] in *; congruence. }
  destruct (setups_keep_gated stages _ _ Hg) as (H1 & H2).
  split; [ rewrite H1; exact Hslot | exact H2 ].
Qed.

Lemma setup_head_call (stage : Stage) (st : Store) :
  hd_error (new_calls st (snd (setup adapter stage st))) =
  option_map (fun r => call_of r (self st))
    (find (fun r => is_None (gate r (self st))) (required stage)).
Proof.
  split_store st; unfold_setup; split_stage stage; repeat step_setup;
    tidy_calls; reflexivity.
Qed.

(** X9.  An adapter exception stores nothing: the slot of the role being
    opened is as before and its guard field is still unresolved, so the
    same [setup] call made again starts by opening that role again. *)
Theorem setup_retries_after_adapter_error (stage : Stage) (st : Store)
    (i : nat) (c : Call) (e : Exn) :
  let st' := snd (setup adapter stage st) in
  let n := List.length (calls st) in
  nth_error (new_calls st st') i = Some c ->
  adapter (n + i) (call_data_dir c) (call_transform c) = inl e ->
  slot (call_role c) (self st') = slot (call_role c) (self st) /\
  gate (call_role c) (self st') = None /\
  hd_error (new_calls st' (snd (setup adapter stage st'))) = Some c.
Proof.
  cbv zeta. intros Hn Ha.
  rewrite setup_head_call. revert Hn Ha.
  split_store st; unfold_setup; split_stage stage; repeat step_setup;
    tidy_calls; intros Hn Ha; pick_call i Hn; norm_index;
    first [ congruence | repeat split ].
Qed.

(** X2.  The first adapter call of a [setup] call is the call of the first
    role, in the order of the blocks, that the stage requires and whose
    guard field is unresolved; there is no call when there is no such
    role. *)
Theorem setup_first_call (stage : Stage) (st : Store) :
  hd_error (new_calls st (snd (setup adapter stage st))) =
  option_map (fun r => call_of r (self st))
    (find (fun r => is_None (gate r (self st))) (required stage)).
Proof. intros. apply setup_head_call. Qed.

(** *** Where the stored handles come from *)

Lemma nth_error_app_some {A : Type} (l l' : list A) (i : nat) (x : A) :
  nth_error l i = Some x -> nth_error (l ++ l') i = Some x.
Proof.
  intros H. rewrite nth_error_app1; [ exact H | ].
  apply nth_error_Some. congruence.
Qed.

Lemma nth_error_app_at {A : Type} (l l' : list A) :
  nth_error (l ++ l') (List.length l) = nth_error l' 0.
Proof. rewrite nth_error_app2, Nat.sub_diag by lia. reflexivity. Qed.

Lemma nth_error_app_after {A : Type} (l l' : list A) (k : nat) :
  nth_error (l ++ l') (List.length l + k) = nth_error l' k.
Proof.
  rewrite nth_error_app2 by lia. f_equal. lia.
Qed.

Ltac old_handle Hinv Hs :=
  match goal with
  | |- opened_for ?r ?d _ =>
      destruct (Hinv r d Hs) as (Hn & Hd & Ht);
      split; [ apply nth_error_app_some || idtac; exact Hn
             | split; assumption ]
  end.

Ltac new_handle Hs :=
  injection Hs as <-; unfold opened_for;
  cbn [calls self ds_id ds_data_dir ds_transform];
  rewrite ?length_app; cbn [List.length];
  rewrite ?nth_error_app_at, ?nth_error_app_after;
  repeat split.

Lemma setup_keeps_provenance (stage : Stage) (st : Store) :
  provenance st -> provenance (snd (setup adapter stage st)).
Proof.
  unfold provenance.
  split_store st; unfold_setup; split_stage stage; repeat step_setup;
    repeat rewrite <- app_assoc; cbn [app];
    intros Hinv r d Hs; destruct r;
    cbn [slot self data_train data_val data_test data_predict] in Hs;
    first [ discriminate Hs | old_handle Hinv Hs | new_handle Hs ].
Qed.

Lemma setups_keep_provenance (stages : list Stage) (st : Store) :
  provenance st -> provenance (setups adapter stages st).
Proof.
  revert st; induction stages as [|stage rest IH]; intros st H; simpl.
  - exact H.
  - apply IH. apply setup_keeps_provenance. exact H.
Qed.

End SetupFacts.

(** ** Batches *)

Section Batches.

Variable B : nat.
Hypothesis B_pos : 0 < B.

Lemma BatchSampler_from_concat (l batch : list nat) :
  List.concat (BatchSampler_from B batch l) = batch ++ l.
Proof.
  revert batch; induction l as [|idx rest IH]; intros batch; simpl.
  - destruct batch as [|x batch]; simpl.
    + reflexivity.
    + rewrite !app_nil_r. reflexivity.
  - destruct (List.length (batch ++ [idx]) =? B); simpl.
    + rewrite IH, <- app_assoc. reflexivity.
    + rewrite IH, <- app_assoc. reflexivity.
Qed.

Lemma BatchSampler_from_sizes (l batch : list nat) :
  List.length batch < B ->
  let total := List.length batch + List.length l in
  map (@List.length nat) (BatchSampler_from B batch l) =
  repeat B (total / B) ++ (if total mod B =? 0 then [] else [total mod B]).
Proof.
  cbv zeta. revert batch; induction l as [|idx rest IH]; intros batch Hlt; simpl.
  - rewrite Nat.add_0_r, Nat.div_small, Nat.mod_small by exact Hlt.
    destruct batch as [|x batch]; simpl; reflexivity.
  - rewrite length_app. cbn [List.length].
    destruct (List.length batch + 1 =? B) eqn:E.
    + apply Nat.eqb_eq in E. cbn [map]. rewrite length_app. cbn [List.length].
      rewrite E, (IH [] B_pos). cbn [List.length Nat.add].
      replace (List.length batch + S (List.length rest))
        with (List.length rest + 1 * B) by lia.
      rewrite Nat.div_add, Nat.Div0.mod_add by lia.
      rewrite Nat.add_1_r. reflexivity.
    + apply Nat.eqb_neq in E.
      rewrite IH by (rewrite length_app; simpl; lia).
      rewrite length_app. cbn [List.length].
      replace (List.length batch + 1 + List.length rest)
        with (List.length batch + S (List.length rest)) by lia.
      reflexivity.
Qed.

Lemma BatchSampler_sizes (l : list nat) :
  let N := List.length l in
  map (@List.length nat) (BatchSampler B l) =
  repeat B (N / B) ++ (if N mod B =? 0 then [] else [N mod B]).
Proof. exact (BatchSampler_from_sizes l [] B_pos). Qed.

Lemma list_sum_repeat (a n : nat) : list_sum (repeat a n) = a * n.
Proof. induction n as [|n IH]; simpl; lia. Qed.

Lemma last_map_length (bs : list (list nat)) :
  List.length (last bs []) = last (map (@List.length nat) bs) 0.
Proof.
  induction bs as [|b [|b' bs] IH]; try reflexivity.
  exact IH.
Qed.

(** The shape of the batches of one pass over [N] indices. *)
Lemma BatchSampler_shape (l : list nat) :
  let N := List.length l in
  let bs := BatchSampler B l in
  List.length bs = ceil_div N B /\
  list_sum (map (@List.length nat) bs) = N /\
  (forall i, S i < List.length bs -> List.length (nth i bs []) = B) /\
  (0 < N ->
   List.length (last bs []) = if N mod B =? 0 then B else N - B * (N / B)).
Proof.
  cbv zeta. pose proof (BatchSampler_sizes l) as Hs. cbv zeta in Hs.
  set (N := List.length l) in *. set (bs := BatchSampler B l) in *.
  assert (Hlen : List.length bs = ceil_div N B).
  { rewrite <- (length_map (@List.length nat)), Hs, length_app, repeat_length.
    unfold ceil_div. destruct (N mod B =? 0); reflexivity. }
  split; [ exact Hlen | ].
  split.
  { rewrite Hs, list_sum_app, list_sum_repeat.
    pose proof (Nat.div_mod_eq N B) as Hdm.
    destruct (N mod B =? 0) eqn:E; simpl.
    - apply Nat.eqb_eq in E. lia.
    - lia. }
  split.
  { intros i Hi.
    change (List.length (nth i bs [])) with
      ((fun b => List.length b) (nth i bs [])).
    rewrite <- (map_nth (@List.length nat)), Hs.
    assert (Hq : i < N / B).
    { rewrite Hlen in Hi. unfold ceil_div in Hi.
      destruct (N mod B =? 0); lia. }
    rewrite app_nth1 by (rewrite repeat_length; exact Hq).
    apply nth_repeat_lt. exact Hq. }
  intros HN. rewrite last_map_length, Hs.
  destruct (N mod B =? 0) eqn:E.
  - apply Nat.eqb_eq in E. rewrite app_nil_r.
    pose proof (Nat.div_mod_eq N B) as Hdm.
    destruct (N / B) as [|q] eqn:Eq; [ lia | ].
    cbn [repeat]. rewrite repeat_cons. apply last_last.
  - rewrite last_last. rewrite Nat.Div0.mod_eq. reflexivity.
Qed.

End Batches.

(** ** Samplers *)

Lemma insert_at_perm (k x : nat) (l : list nat) :
  Permutation (insert_at k x l) (x :: l).
Proof.
  unfold insert_at. symmetry.
  rewrite <- (firstn_skipn k l) at 1.
  apply Permutation_middle.
Qed.

Lemma randperm_perm (g : nat -> nat) (n : nat) :
  Permutation (randperm g n) (seq 0 n).
Proof.
  induction n as [|m IH]; cbn [randperm].
  - constructor.
  - rewrite insert_at_perm, IH, seq_S. cbn [Nat.add].
    apply Permutation_cons_append.
Qed.

Lemma randperm_length (g : nat -> nat) (n : nat) :
  List.length (randperm g n) = n.
Proof.
  rewrite (Permutation_length (randperm_perm g n)). apply length_seq.
Qed.

Lemma randperm_gen_id (n : nat) : randperm gen_id n = seq 0 n.
Proof.
  induction n as [|m IH]; cbn [randperm].
  - reflexivity.
  - unfold gen_id at 1. rewrite Nat.mod_small by lia.
    rewrite IH, seq_S. unfold insert_at.
    rewrite firstn_all2, skipn_all2 by (rewrite length_seq; lia).
    reflexivity.
Qed.

Lemma randperm_gen_zero_head (n : nat) :
  hd 0 (randperm gen_zero (S n)) = n.
Proof.
  cbn [randperm]. unfold gen_zero at 1.
  rewrite Nat.Div0.mod_0_l. reflexivity.
Qed.

Lemma randperm_depends_on_generator (N : nat) :
  2 <= N -> randperm gen_zero N <> randperm gen_id N.
Proof.
  intros HN E. destruct N as [|[|k]]; try lia.
  apply (f_equal (hd 0)) in E.
  rewrite randperm_gen_zero_head, randperm_gen_id in E. discriminate E.
Qed.

Lemma sampler_length (g : nat -> nat) (b : bool) (n : nat) :
  List.length (if b then RandomSampler g n else SequentialSampler n) = n.
Proof.
  destruct b; [ apply randperm_length | apply length_seq ].
Qed.

(** ** Loaders *)

Lemma getters_pass_slot {L : Type} (ctor : LoaderArgs -> Outcome L)
    (r : Role) (getter : M L) (st : Store) :
  dataloader_of ctor r = Some getter ->
  getter st =
  (ctor {| dataset := slot r (self st);
           dl_batch_size := batch_size (hparams (self st));
           dl_num_workers := num_workers (hparams (self st));
           dl_pin_memory := pin_memory (hparams (self st));
           shuffle := Role_eqb r Train |}, st).
Proof.
  destruct r; cbn [dataloader_of]; intros H; try discriminate H;
    injection H as <-; reflexivity.
Qed.

Lemma torch_DataLoader_returns (a ld : LoaderArgs) :
  torch_DataLoader a = Returned ld ->
  ld = a /\ (0 < dl_batch_size a)%Z.
Proof.
  unfold torch_DataLoader.
  destruct (dl_num_workers a <? 0)%Z; [ discriminate | ].
  destruct (shuffle a && is_None (dataset a)); [ discriminate | ].
  destruct (shuffle a && _); [ discriminate | ].
  destruct (dl_batch_size a <=? 0)%Z eqn:E; [ discriminate | ].
  intros H. injection H as <-. split; [ reflexivity | ].
  apply Z.leb_gt in E. exact E.
Qed.

Lemma loader_iter_resolved (g : nat -> nat) (a : LoaderArgs) (d : Dataset) :
  dataset a = Some d ->
  (0 < dl_batch_size a)%Z ->
  loader_iter g a =
  Returned (BatchSampler (Z.to_nat (dl_batch_size a))
              (if shuffle a then RandomSampler g (ds_len d)
               else SequentialSampler (ds_len d))).
Proof.
  intros Hd HB. unfold loader_iter. rewrite Hd.
  destruct (dl_batch_size a <=? 0)%Z eqn:E; [ | reflexivity ].
  apply Z.leb_le in E. lia.
Qed.

(** C5.  Shuffle policy.  Each getter hands the constructor its role's slot
    and the configured batch size, worker count and pinning, with [shuffle]
    set for train and cleared for validation and test.  For a loader so
    obtained over a resolved partition of length [N]: one full iteration
    yields batches whose concatenation is, for validation and test, the
    indices [0 .. N-1] in insertion order whatever the generator state (so
    identical across restarts), and for train the permutation of [0 .. N-1]
    drawn from the generator state of that restart; two generator states can
    give different orders as soon as [N >= 2]. *)
Theorem loader_shuffle_policy (r : Role) (getter : M LoaderArgs) (st : Store)
    (d : Dataset) (ld : LoaderArgs) (g : nat -> nat) :
  dataloader_of torch_DataLoader r = Some getter ->
  slot r (self st) = Some d ->
  fst (getter st) = Returned ld ->
  (forall (L : Type) (ctor : LoaderArgs -> Outcome L) (st0 : Store),
     let args (ds : option Dataset) (sh : bool) :=
       {| dataset := ds;
          dl_batch_size := batch_size (hparams (self st0));
          dl_num_workers := num_workers (hparams (self st0));
          dl_pin_memory := pin_memory (hparams (self st0));
          shuffle := sh |} in
     train_dataloader ctor st0 = (ctor (args (data_train (self st0)) true), st0) /\
     val_dataloader ctor st0 = (ctor (args (data_val (self st0)) false), st0) /\
     test_dataloader ctor st0 = (ctor (args (data_test (self st0)) false), st0)) /\
  dataset ld = Some d /\
  shuffle ld = Role_eqb r Train /\
  (exists bs, loader_iter g ld = Returned bs /\
     if shuffle ld
     then List.concat bs = randperm g (ds_len d) /\
          Permutation (List.concat bs) (seq 0 (ds_len d))
     else List.concat bs = seq 0 (ds_len d) /\
          forall g', loader_iter g' ld = Returned bs) /\
  (forall N, 2 <= N -> randperm gen_zero N <> randperm gen_id N).
Proof.
  intros Hget Hslot Hld.
  split; [ intros L ctor st0; cbv zeta; repeat split | ].
  rewrite (getters_pass_slot _ _ _ st Hget) in Hld. cbn [fst] in Hld.
  match type of Hld with torch_DataLoader ?x = _ => set (a := x) in * end.
  apply torch_DataLoader_returns in Hld. destruct Hld as (-> & HB).
  assert (Hd : dataset a = Some d) by exact Hslot.
  assert (Hsh : shuffle a = Role_eqb r Train) by reflexivity.
  clearbody a.
  split; [ exact Hd | ].
  split; [ exact Hsh | ].
  split; [ | exact randperm_depends_on_generator ].
  eexists. split; [ apply loader_iter_resolved; eassumption | ].
  unfold BatchSampler. rewrite BatchSampler_from_concat. cbn [app].
  destruct (shuffle a) eqn:Es.
  - split; [ reflexivity | apply randperm_perm ].
  - split; [ reflexivity | ].
    intros g'. rewrite (loader_iter_resolved g' a d Hd HB), Es. reflexivity.
Qed.

(** C6.  Loader batch shape.  For a loader over a resolved partition of
    length [N > 0] with batch size [B > 0], with or without shuffling and
    whatever the generator state, one full iteration yields [ceil (N / B)]
    batches whose sizes sum to [N]; every batch but the last has [B] samples
    and the last has [N - B * floor (N / B)], or [B] when [B] divides [N];
    together the batches hold each index below [N] once. *)
Theorem loader_batch_shape (g : nat -> nat) (a : LoaderArgs) (d : Dataset) :
  dataset a = Some d ->
  0 < ds_len d ->
  (0 < dl_batch_size a)%Z ->
  let N := ds_len d in
  let B := Z.to_nat (dl_batch_size a) in
  exists bs,
    loader_iter g a = Returned bs /\
    List.length bs = ceil_div N B /\
    B * (List.length bs - 1) < N <= B * List.length bs /\
    list_sum (map (@List.length nat) bs) = N /\
    (forall i, S i < List.length bs -> List.length (nth i bs []) = B) /\
    List.length (last bs []) = (if N mod B =? 0 then B else N - B * (N / B)) /\
    Permutation (List.concat bs) (seq 0 N).
Proof.
  intros Hd HN HB. cbv zeta.
  assert (HBn : 0 < Z.to_nat (dl_batch_size a)) by lia.
  set (B := Z.to_nat (dl_batch_size a)) in *.
  set (sampler := if shuffle a then RandomSampler g (ds_len d)
                  else SequentialSampler (ds_len d)).
  assert (Hlen : List.length sampler = ds_len d) by apply sampler_length.
  exists (BatchSampler B sampler).
  split; [ apply loader_iter_resolved; assumption | ].
  destruct (BatchSampler_shape B HBn sampler) as (H1 & H2 & H3 & H4).
  rewrite Hlen in H1, H2, H4.
  split; [ exact H1 | ].
  split.
  { rewrite H1. unfold ceil_div.
    pose proof (Nat.div_mod_eq (ds_len d) B) as Hdm.
    pose proof (Nat.mod_upper_bound (ds_len d) B ltac:(lia)) as Hr.
    destruct (ds_len d mod B =? 0) eqn:E.
    - apply Nat.eqb_eq in E. nia.
    - apply Nat.eqb_neq in E. nia. }
  split; [ exact H2 | ].
  split; [ exact H3 | ].
  split; [ exact (H4 HN) | ].
  unfold BatchSampler. rewrite BatchSampler_from_concat. cbn [app].
  unfold sampler. destruct (shuffle a).
  - apply randperm_perm.
  - apply Permutation_refl.
Qed.

(** C8 (amended).  The loader getters make no check of their own: asked for
    a loader while the role's partition is unresolved, a getter hands
    [dataset=None] to the loader constructor, with the configured batch
    size, worker count and pinning and the role's shuffle flag, and its
    outcome is the constructor's. *)
Theorem loader_getters_do_not_check {L : Type} (ctor : LoaderArgs -> Outcome L)
    (r : Role) (getter : M L) (st : Store) :
  dataloader_of ctor r = Some getter ->
  slot r (self st) = None ->
  getter st =
  (ctor {| dataset := None;
           dl_batch_size := batch_size (hparams (self st));
           dl_num_workers := num_workers (hparams (self st));
           dl_pin_memory := pin_memory (hparams (self st));
           shuffle := Role_eqb r Train |}, st).
Proof.
  intros Hget Hslot.
  rewrite (getters_pass_slot ctor r getter st Hget), Hslot. reflexivity.
Qed.

(** ** Pipelines *)

Lemma normalize_identity (x : Q) : (normalize_value 0 1 x == x)%Q.
Proof. unfold normalize_value. simpl inject_Z. field. Qed.

(** C7.  Pipelines by role.  Whatever the constructor's arguments, the
    train pipeline is the sequence: image conversion and grayscale with one
    output channel, resize to (256, 256), random rotation by at most 20
    degrees either way, tensor conversion and normalization with mean 0 and
    std 1; the pipelines of validation, test and predict are that sequence
    without the random rotation.  In the specification's stages these are
    the four (respectively three) stages it names.  The pipelines do not
    depend on [input_size] or on any other argument, normalization with
    mean 0 and std 1 leaves every value as it is, and every adapter call of
    any sequence of [setup] calls carries the pipeline of its role. *)
Theorem pipelines_by_role (train_dir val_dir test_dir : Source)
    (input_size : Z * Z) (batch_size num_workers : Z) (pin_memory : bool) :
  let m := init train_dir val_dir test_dir input_size batch_size num_workers
             pin_memory in
  transform_for Train m =
    [ ToPILImage; Grayscale 1; Resize (256%Z, 256%Z); RandomRotation 20;
      ToTensor; Normalize [0%Z] [1%Z] ] /\
  (forall r, r <> Train ->
     transform_for r m =
     filter (fun t => negb (is_random t)) (transform_for Train m)) /\
  (forall r, stages_of (transform_for r m) = Some (spec_pipeline r)) /\
  (forall r train_dir' val_dir' test_dir' input_size' batch_size' num_workers'
          pin_memory',
     transform_for r (init train_dir' val_dir' test_dir' input_size'
                        batch_size' num_workers' pin_memory') =
     transform_for r m) /\
  (forall x : Q, (normalize_value 0 1 x == x)%Q) /\
  (forall (adapter : Adapter) (stages : list Stage) (c : Call),
     In c (calls (setups adapter stages (fresh m))) ->
     call_transform c = transform_for (call_role c) m).
Proof.
  cbv zeta.
  split; [ reflexivity | ].
  split; [ intros [ | | | ] Hr; try reflexivity; contradiction | ].
  split; [ intros [ | | | ]; reflexivity | ].
  split; [ intros [ | | | ]; reflexivity | ].
  split; [ exact normalize_identity | ].
  intros adapter stages c Hc.
  pose proof (setups_calls_by_role adapter stages
                (fresh (init train_dir val_dir test_dir input_size batch_size
                          num_workers pin_memory))) as Hall.
  unfold new_calls in Hall. cbn [fresh calls List.length skipn] in Hall.
  rewrite Forall_forall in Hall. specialize (Hall c Hc).
  rewrite Hall at 1. reflexivity.
Qed.

(** ** Runs on the sample inputs *)

(** C1 (counterexample).  With the test slot unresolved, a second
    [setup('predict')] opens the predict partition again and replaces the
    stored handle. *)
Lemma setup_reopens_predict :
  let adapter := sized_adapter sample_sizes in
  let st1 := snd (setup adapter (Some "predict") (fresh sample_module)) in
  let st2 := snd (setup adapter (Some "predict") st1) in
  resolved Predict st1 /\
  slot Predict (self st2) <> slot Predict (self st1) /\
  List.length (calls_for Predict (new_calls st1 st2)) = 1.
Proof.
  cbv zeta. split; [ eexists; reflexivity | ].
  split; [ | reflexivity ].
  intros H. vm_compute in H. discriminate H.
Qed.

Lemma setup_idempotent_witness :
  let adapter := sized_adapter sample_sizes in
  let st := snd (setup adapter (Some "validation") (fresh sample_module)) in
  let stages := [Some "predict"; Some "validation"; None; Some "fit"] in
  let d := mkDataset 1 (LocalPath "data/test") (test_transform sample_module) 5 in
  slot Test (self st) = Some d /\
  slot Test (self (setups adapter stages st)) = Some d /\
  calls_for Test (new_calls st (setups adapter stages st)) = [].
Proof.
  cbv zeta. split; [ reflexivity | ].
  apply (setup_idempotent_when_gated (sized_adapter sample_sizes)).
  - reflexivity.
  - left. discriminate.
Defined.

(** C3 (counterexample).  After [setup('validation')] has failed on an
    empty validation source, the empty handle is in [data_val] and the
    validation getter returns a loader over it, which iterates to no batch
    at all. *)
Lemma loader_built_after_empty_failure :
  let adapter := sized_adapter empty_val_sizes in
  let run := setup adapter (Some "validation") (fresh sample_module) in
  fst run = Raised (ValueError "Validation dataset is empty.") /\
  exists ld d,
    fst (val_dataloader torch_DataLoader (snd run)) = Returned ld /\
    dataset ld = Some d /\ ds_len d = 0 /\
    loader_iter gen_zero ld = Returned [].
Proof.
  cbv zeta. split; [ reflexivity | ].
  eexists. eexists. split; [ reflexivity | ].
  split; [ reflexivity | ]. split; reflexivity.
Qed.

Lemma setup_emptiness_gate_witness :
  let adapter := sized_adapter empty_val_sizes in
  let run := setup adapter (Some "validation") (fresh sample_module) in
  In Validation (required (Some "validation")) /\
  fst run = Raised (ValueError "Validation dataset is empty.") /\
  List.length (new_calls (fresh sample_module) (snd run)) = 1.
Proof.
  cbv zeta.
  apply (setup_emptiness_gate (sized_adapter empty_val_sizes)
           (Some "validation") (fresh sample_module) 0
           (mkCall Validation (LocalPath "data/val") (val_transform sample_module))).
  - reflexivity.
  - reflexivity.
Defined.

(** The gate is passed on a second call: the empty handle stays stored. *)
Example setup_again_after_empty_failure :
  let adapter := sized_adapter empty_val_sizes in
  let st1 := snd (setup adapter (Some "validation") (fresh sample_module)) in
  fst (setup adapter (Some "validation") st1) = Returned tt.
Proof. reflexivity. Qed.

(** A failing call keeps what it opened before the failure. *)
Example setup_fit_fails_on_validation :
  let adapter := sized_adapter empty_val_sizes in
  let run := setup adapter (Some "fit") (fresh sample_module) in
  fst run = Raised (ValueError "Validation dataset is empty.") /\
  option_map ds_len (data_train (self (snd run))) = Some 10 /\
  data_test (self (snd run)) = None /\
  List.length (calls (snd run)) = 2.
Proof. repeat split. Qed.

(** C5 (witness): the train loader of the sample module. *)
Lemma loader_shuffle_policy_witness :
  let st := snd (setup (sized_adapter sample_sizes) (Some "train")
                   (fresh sample_module)) in
  exists ld bs,
    fst (train_dataloader torch_DataLoader st) = Returned ld /\
    shuffle ld = true /\
    loader_iter gen_zero ld = Returned bs /\
    List.concat bs = randperm gen_zero 10.
Proof.
  cbv zeta.
  pose proof (loader_shuffle_policy Train (train_dataloader torch_DataLoader)
                (snd (setup (sized_adapter sample_sizes) (Some "train")
                        (fresh sample_module)))
                (mkDataset 0 (LocalPath "data/train")
                   (train_transform sample_module) 10)
                {| dataset := Some (mkDataset 0 (LocalPath "data/train")
                                      (train_transform sample_module) 10);
                   dl_batch_size := 4; dl_num_workers := 0;
                   dl_pin_memory := false; shuffle := true |}
                gen_zero eq_refl eq_refl eq_refl) as H.
  destruct H as (_ & _ & Hsh & (bs & Hbs & Hcat) & _).
  rewrite Hsh in Hcat. cbn [Role_eqb] in Hcat. destruct Hcat as (Hcat & _).
  eexists. exists bs. split; [ reflexivity | ].
  split; [ reflexivity | ]. split; [ exact Hbs | exact Hcat ].
Defined.

(** C6 (witness): ten samples in batches of four. *)
Lemma loader_batch_shape_witness :
  exists bs,
    loader_iter gen_zero
      {| dataset := Some (mkDataset 0 (LocalPath "data/train")
                            (train_transform sample_module) 10);
         dl_batch_size := 4; dl_num_workers := 0;
         dl_pin_memory := false; shuffle := true |} = Returned bs /\
    List.length bs = 3 /\
    list_sum (map (@List.length nat) bs) = 10 /\
    List.length (last bs []) = 2.
Proof.
  destruct (loader_batch_shape gen_zero
              {| dataset := Some (mkDataset 0 (LocalPath "data/train")
                                    (train_transform sample_module) 10);
                 dl_batch_size := 4; dl_num_workers := 0;
                 dl_pin_memory := false; shuffle := true |}
              (mkDataset 0 (LocalPath "data/train")
                 (train_transform sample_module) 10)
              eq_refl ltac:(cbn; lia) ltac:(reflexivity))
    as (bs & H1 & H2 & _ & H3 & _ & H4 & _).
  exists bs. split; [ exact H1 | ]. split; [ exact H2 | ].
  split; [ exact H3 | exact H4 ].
Defined.

(** The end-to-end scenario: ten training samples, batch size four. *)
Example train_loader_ten_by_four :
  let st := snd (setup (sized_adapter sample_sizes) (Some "train")
                   (fresh sample_module)) in
  exists ld bs,
    fst (train_dataloader torch_DataLoader st) = Returned ld /\
    loader_iter gen_id ld = Returned bs /\
    map (@List.length nat) bs = [4; 4; 2].
Proof. cbv zeta. eexists. eexists. repeat split. Qed.

(** C8 (counterexample).  On a freshly constructed module the validation
    getter returns a loader, over [None]; the failure comes only when the
    loader is iterated. *)
Lemma unresolved_loader_is_returned :
  exists ld,
    fst (val_dataloader torch_DataLoader (fresh sample_module)) = Returned ld /\
    dataset ld = None /\
    loader_iter gen_zero ld =
      Raised (TypeError "object of type 'NoneType' has no len()").
Proof. eexists. repeat split. Qed.

Lemma loader_getters_do_not_check_witness :
  val_dataloader torch_DataLoader (fresh sample_module) =
  (torch_DataLoader {| dataset := None; dl_batch_size := 4;
                       dl_num_workers := 0; dl_pin_memory := false;
                       shuffle := false |}, fresh sample_module).
Proof.
  apply (loader_getters_do_not_check torch_DataLoader Validation
           (val_dataloader torch_DataLoader) (fresh sample_module)).
  - reflexivity.
  - reflexivity.
Defined.

(** C9 (counterexample).  [setup('Fit')], an identifier that is none of
    the stages, raises nothing: it returns normally with nothing opened. *)
Lemma setup_unlisted_stage_returns :
  ~ In (Some "Fit") known_stages /\
  setup (sized_adapter sample_sizes) (Some "Fit") (fresh sample_module) =
  (Returned tt, fresh sample_module).
Proof.
  split; [ | reflexivity ].
  unfold known_stages. simpl. intros [H|[H|[H|[H|[H|[]]]]]]; discriminate H.
Qed.

Lemma setup_unknown_stage_noop_witness :
  setup (sized_adapter sample_sizes) (Some "Fit") (fresh sample_module) =
  (Returned tt, fresh sample_module).
Proof.
  apply (setup_unknown_stage_noop (sized_adapter sample_sizes) (Some "Fit")
           (fresh sample_module)).
  - unfold known_stages. simpl. intros [H|[H|[H|[H|[H|[]]]]]]; discriminate H.
  - discriminate.
Defined.

(** C10 (counterexample).  After [setup('predict')], a [setup('validation')]
    that finds the validation source empty raises in its validation block
    and never reaches the test source. *)
Lemma later_setup_may_not_reach_test :
  let adapter := sized_adapter empty_val_sizes in
  let st1 := snd (setup adapter (Some "predict") (fresh sample_module)) in
  let run := setup adapter (Some "validation") st1 in
  data_test (self st1) = None /\
  fst run = Raised (ValueError "Validation dataset is empty.") /\
  calls_for Test (new_calls st1 (snd run)) = [].
Proof. cbv zeta. repeat split. Qed.

Lemma predict_uses_separate_slot_witness :
  let adapter := sized_adapter sample_sizes in
  let st1 := snd (setup adapter (Some "predict") (fresh sample_module)) in
  data_test (self st1) = None /\
  option_map ds_len (data_predict (self st1)) = Some 5 /\
  List.length (new_calls st1 (snd (setup adapter (Some "predict") st1))) = 1 /\
  In (mkCall Test (LocalPath "data/test") (test_transform sample_module))
     (new_calls st1 (snd (setup adapter (Some "validation") st1))).
Proof.
  cbv zeta.
  destruct (predict_uses_separate_slot (sized_adapter sample_sizes)
              (fresh sample_module) eq_refl) as (H1 & _ & H2 & H3 & _).
  split; [ exact H1 | ].
  split; [ rewrite (H2 5 eq_refl); reflexivity | ].
  split; [ rewrite H3; reflexivity | ].
  simpl. tauto.
Defined.

(** ** From construction on *)

Lemma fresh_init_provenance (train_dir val_dir test_dir : Source)
    (input_size : Z * Z) (batch_size num_workers : Z) (pin_memory : bool) :
  provenance (fresh (init train_dir val_dir test_dir input_size batch_size
                       num_workers pin_memory)).
Proof. intros [ | | | ] d H; discriminate H. Qed.

(** X10.  On a module built by [__init__] and taken through any sequence
    of [setup] calls, a handle found in a slot was opened by the block of
    that role: on the role's source reference (the test source for
    predict), with the role's pipeline, by the adapter call recorded at the
    handle's number. *)
Theorem stored_handle_provenance (adapter : Adapter)
    (train_dir val_dir test_dir : Source) (input_size : Z * Z)
    (batch_size num_workers : Z) (pin_memory : bool)
    (stages : list Stage) (r : Role) (d : Dataset) :
  let m := init train_dir val_dir test_dir input_size batch_size num_workers
             pin_memory in
  let st := setups adapter stages (fresh m) in
  slot r (self st) = Some d ->
  ds_data_dir d = source_for r m /\
  ds_transform d = transform_for r m /\
  nth_error (calls st) (ds_id d) = Some (call_of r m).
Proof.
  cbv zeta. intros Hs.
  pose proof (setups_keep_provenance adapter stages _
                (fresh_init_provenance train_dir val_dir test_dir input_size
                   batch_size num_workers pin_memory) r d Hs)
    as (Hn & Hd & Ht).
  pose proof (setups_keep_config adapter stages
                (fresh (init train_dir val_dir test_dir input_size batch_size
                          num_workers pin_memory))) as Hc.
  rewrite (config_call_of _ _ r Hc) in Hn.
  apply (config_call_of _ _ r) in Hc. unfold call_of in Hc.
  injection Hc as Hsrc Htf. cbn [fresh self] in *.
  repeat split; congruence.
Qed.

(** X11.  On such a module no handle is copied from one slot to another:
    the handles found in the slots of two different roles were returned by
    two different recorded adapter calls, each the call of its own role. *)
Theorem slots_never_alias (adapter : Adapter)
    (train_dir val_dir test_dir : Source) (input_size : Z * Z)
    (batch_size num_workers : Z) (pin_memory : bool)
    (stages : list Stage) (r1 r2 : Role) (d1 d2 : Dataset) :
  let m := init train_dir val_dir test_dir input_size batch_size num_workers
             pin_memory in
  let st := setups adapter stages (fresh m) in
  slot r1 (self st) = Some d1 ->
  slot r2 (self st) = Some d2 ->
  r1 <> r2 ->
  ds_id d1 <> ds_id d2 /\
  nth_error (calls st) (ds_id d1) = Some (call_of r1 m) /\
  nth_error (calls st) (ds_id d2) = Some (call_of r2 m).
Proof.
  cbv zeta. intros H1 H2 Hr.
  pose proof (setups_keep_provenance adapter stages _
                (fresh_init_provenance train_dir val_dir test_dir input_size
                   batch_size num_workers pin_memory)) as Hp.
  pose proof (setups_keep_config adapter stages
                (fresh (init train_dir val_dir test_dir input_size batch_size
                          num_workers pin_memory))) as Hc.
  destruct (Hp r1 d1 H1) as (Hn1 & _). destruct (Hp r2 d2 H2) as (Hn2 & _).
  rewrite (config_call_of _ _ r1 Hc) in Hn1.
  rewrite (config_call_of _ _ r2 Hc) in Hn2.
  cbn [fresh self] in *.
  split; [ | split; assumption ].
  intros E. rewrite E, Hn2 in Hn1. injection Hn1 as Hrole _ _. congruence.
Qed.

(** X12.  Whatever [setup] calls were made, the getters pass the batch
    size, worker count and pinning given to [__init__], and the current
    slot; they leave the store as it is. *)
Theorem getters_use_init_arguments {L : Type} (ctor : LoaderArgs -> Outcome L)
    (adapter : Adapter) (train_dir val_dir test_dir : Source)
    (input_size : Z * Z) (batch_size num_workers : Z) (pin_memory : bool)
    (stages : list Stage) :
  let st := setups adapter stages
              (fresh (init train_dir val_dir test_dir input_size batch_size
                        num_workers pin_memory)) in
  let args (ds : option Dataset) (sh : bool) :=
    {| dataset := ds; dl_batch_size := batch_size;
       dl_num_workers := num_workers; dl_pin_memory := pin_memory;
       shuffle := sh |} in
  train_dataloader ctor st = (ctor (args (data_train (self st)) true), st) /\
  val_dataloader ctor st = (ctor (args (data_val (self st)) false), st) /\
  test_dataloader ctor st = (ctor (args (data_test (self st)) false), st).
Proof.
  cbv zeta.
  pose proof (setups_keep_config adapter stages
                (fresh (init train_dir val_dir test_dir input_size batch_size
                          num_workers pin_memory))) as Hc.
  unfold config in Hc. injection Hc as Hh _ _ _ _ _ _.
  unfold train_dataloader, val_dataloader, test_dataloader, bind, get_self, call.
  rewrite Hh. repeat split.
Qed.

(** X13.  After a [setup] call that returned, the getter of every role the
    stage requires hands the constructor a resolved dataset. *)
Theorem getters_after_setup {L : Type} (ctor : LoaderArgs -> Outcome L)
    (adapter : Adapter) (stage : Stage) (st : Store) (r : Role)
    (getter : M L) :
  let st' := snd (setup adapter stage st) in
  fst (setup adapter stage st) = Returned tt ->
  In r (required stage) ->
  dataloader_of ctor r = Some getter ->
  exists d,
    slot r (self st') = Some d /\
    getter st' =
    (ctor {| dataset := Some d;
             dl_batch_size := batch_size (hparams (self st'));
             dl_num_workers := num_workers (hparams (self st'));
             dl_pin_memory := pin_memory (hparams (self st'));
             shuffle := Role_eqb r Train |}, st').
Proof.
  cbv zeta. intros Hret Hin Hget.
  assert (Hr : r <> Predict) by (intros ->; discriminate Hget).
  destruct (setup_success_gates adapter stage st Hret) as (Hgates & _).
  specialize (Hgates r Hin Hr).
  assert (Hs : exists d, slot r (self (snd (setup adapter stage st))) = Some d).
  { destruct r; cbn [gate slot] in *;
      match goal with
      | |- exists d, ?x = Some d => destruct x as [d|]; [ exists d; reflexivity | congruence ]
      end. }
  destruct Hs as (d & Hd). exists d. split; [ exact Hd | ].
  rewrite (getters_pass_slot ctor r getter _ Hget), Hd. reflexivity.
Qed.

(** ** Further runs on the sample inputs *)

Lemma setup_repeat_noop_witness :
  let adapter := sized_adapter sample_sizes in
  let st' := snd (setup adapter (Some "fit") (fresh sample_module)) in
  setup adapter (Some "fit") st' = (Returned tt, st').
Proof.
  cbv zeta.
  apply (setup_repeat_noop (sized_adapter sample_sizes) (Some "fit")
           (fresh sample_module)); reflexivity.
Defined.

Lemma setup_predict_after_test_noop_witness :
  let adapter := sized_adapter sample_sizes in
  let st' := snd (setup adapter (Some "validation") (fresh sample_module)) in
  setup adapter (Some "predict") st' = (Returned tt, st').
Proof.
  cbv zeta.
  apply (setup_predict_after_test_noop (sized_adapter sample_sizes)
           (Some "validation") (fresh sample_module)).
  - reflexivity.
  - simpl. tauto.
Defined.

Lemma setup_full_then_frozen_witness :
  let adapter := sized_adapter sample_sizes in
  let st' := snd (setup adapter None (fresh sample_module)) in
  setups adapter [Some "predict"; Some "train"; None; Some "validation"] st' = st'.
Proof.
  cbv zeta.
  apply (setup_full_then_frozen (sized_adapter sample_sizes) None
           (fresh sample_module)).
  - reflexivity.
  - simpl. tauto.
Defined.

Lemma setups_never_unresolve_witness :
  let adapter := sized_adapter sample_sizes in
  let st1 := snd (setup adapter (Some "predict") (fresh sample_module)) in
  resolved Predict (setups adapter [Some "predict"; Some "fit"] st1).
Proof.
  cbv zeta.
  apply (setups_never_unresolve (sized_adapter sample_sizes)).
  eexists. reflexivity.
Defined.

Lemma setup_caches_empty_handle_witness :
  let adapter := sized_adapter empty_val_sizes in
  let st' := snd (setup adapter (Some "validation") (fresh sample_module)) in
  let d := mkDataset 0 (LocalPath "data/val") (val_transform sample_module) 0 in
  slot Validation (self st') = Some d /\
  (Validation <> Predict ->
   slot Validation (self (setups adapter [Some "validation"; None] st')) = Some d /\
   calls_for Validation
     (new_calls st' (setups adapter [Some "validation"; None] st')) = []).
Proof.
  cbv zeta.
  apply (setup_caches_empty_handle (sized_adapter empty_val_sizes)
           (Some "validation") (fresh sample_module) 0
           (mkCall Validation (LocalPath "data/val") (val_transform sample_module))
           [Some "validation"; None]); reflexivity.
Defined.

Lemma setup_retries_after_adapter_error_witness :
  let st' := snd (setup flaky_adapter (Some "train") (fresh sample_module)) in
  let c := mkCall Train (LocalPath "data/train") (train_transform sample_module) in
  slot Train (self st') = None /\
  gate Train (self st') = None /\
  hd_error (new_calls st' (snd (setup flaky_adapter (Some "train") st'))) = Some c.
Proof.
  cbv zeta.
  apply (setup_retries_after_adapter_error flaky_adapter (Some "train")
           (fresh sample_module) 0
           (mkCall Train (LocalPath "data/train") (train_transform sample_module))
           (AdapterError "source unreachable")); reflexivity.
Defined.

Lemma stored_handle_provenance_witness :
  let st := setups (sized_adapter sample_sizes) [Some "train"; Some "predict"]
              (fresh sample_module) in
  let d := mkDataset 1 (LocalPath "data/test") (test_transform sample_module) 5 in
  ds_data_dir d = LocalPath "data/test" /\
  ds_transform d = test_transform sample_module /\
  nth_error (calls st) 1 =
    Some (mkCall Predict (LocalPath "data/test") (test_transform sample_module)).
Proof.
  cbv zeta.
  apply (stored_handle_provenance (sized_adapter sample_sizes)
           (LocalPath "data/train") (LocalPath "data/val") (LocalPath "data/test")
           default_input_size 4 default_num_workers default_pin_memory
           [Some "train"; Some "predict"] Predict
           (mkDataset 1 (LocalPath "data/test") (test_transform sample_module) 5)).
  reflexivity.
Defined.

Lemma slots_never_alias_witness :
  let st := setups (sized_adapter sample_sizes)
              [Some "predict"; Some "validation"] (fresh sample_module) in
  let d1 := mkDataset 0 (LocalPath "data/test") (test_transform sample_module) 5 in
  let d2 := mkDataset 2 (LocalPath "data/test") (test_transform sample_module) 5 in
  slot Predict (self st) = Some d1 /\
  slot Test (self st) = Some d2 /\
  ds_id d1 <> ds_id d2.
Proof.
  cbv zeta. split; [ reflexivity | ]. split; [ reflexivity | ].
  refine (proj1 (slots_never_alias (sized_adapter sample_sizes)
           (LocalPath "data/train") (LocalPath "data/val") (LocalPath "data/test")
           default_input_size 4 default_num_workers default_pin_memory
           [Some "predict"; Some "validation"] Predict Test
           (mkDataset 0 (LocalPath "data/test") (test_transform sample_module) 5)
           (mkDataset 2 (LocalPath "data/test") (test_transform sample_module) 5)
           _ _ _)).
  - reflexivity.
  - reflexivity.
  - discriminate.
Defined.

Lemma getters_after_setup_witness :
  let st' := snd (setup (sized_adapter sample_sizes) (Some "validation")
                    (fresh sample_module)) in
  exists d,
    slot Test (self st') = Some d /\
    test_dataloader torch_DataLoader st' =
    (torch_DataLoader {| dataset := Some d; dl_batch_size := 4;
                         dl_num_workers := 0; dl_pin_memory := false;
                         shuffle := false |}, st').
Proof.
  cbv zeta.
  apply (getters_after_setup torch_DataLoader (sized_adapter sample_sizes)
           (Some "validation") (fresh sample_module) Test
           (test_dataloader torch_DataLoader)).
  - reflexivity.
  - simpl. tauto.
  - reflexivity.
Defined.
